(** * Message relay: REST ingress (service1-api) and queue consumer
      (service2-consumer)

    A shallow embedding of the two Python services and the properties of
    their business logic:
    - [Python]   : the JSON values the handlers receive, the outcome of a
                   Python expression (a value or a raised exception) and the
                   state-and-exception monad the service code runs in;
    - [Api]      : microservices/service1-api/app.py;
    - [Consumer] : microservices/service2-consumer/app.py;
    - [ConsumerMain] : its entry point [main];
    - [Relay]    : the message the queue delivers for a body that was sent;
    - [E2E]      : the waiting loop of microservices/e2e_test/e2e_test.py;
    - [Fixtures] : the payloads and messages of the two test suites, with
                   collaborators to run the services on them;
    - [ApiNotions], [ConsumerNotions], [E2ENotions] : the words the
                   properties are stated in;
    - [ApiSpec], [ConsumerSpec] : the properties the specification claims;
    - [ApiExtra], [ConsumerExtra], [RelaySpec], [E2ESpec] : further
                   properties of the code.

    The collaborators (SSM, SQS, S3, the clock, the json library) are
    parameters of the model: a service function takes an environment that
    answers every call, and leaves in the world what it did to them.
    [print] and [app.logger] calls neither return a value nor touch a
    collaborator and are left out. *)

From Stdlib Require Import Ascii.
From stdpp Require Import base option list strings pretty gmap fin_maps.

Local Open Scope string_scope.
Local Open Scope list_scope.
Local Open Scope nat_scope.

(* ===================================================================== *)
(** * Python values, exceptions and effects *)
(* ===================================================================== *)

Module Python.

(** What [json.loads] / [request.get_json()] can return. A dict is kept as
    its list of items in insertion order (the order [json.dumps] writes);
    the keys of a decoded dict are distinct, and [dict_get] reads the first
    item of a key. *)
#[warnings="-register-all"]
Inductive json : Type :=
| JNull
| JBool (b : bool)
| JInt (z : Z)
| JFloat (repr : string)
| JStr (s : string)
| JArr (items : list json)
| JObj (fields : list (string * json)).

(** The exception classes the two services can meet. All of them derive
    from [Exception]. [ClientError] is botocore's; [BadRequest] is what
    Flask raises from [get_json] on a body that does not parse. *)
Inductive exn : Type :=
| TypeError (msg : string)
| KeyError (key : string)
| ClientError (msg : string)
| BadRequest
| OtherError (msg : string).

Definition is_ClientError (e : exn) : bool :=
  match e with ClientError _ => true | _ => false end.

(** [str(e)] *)
Definition exn_str (e : exn) : string :=
  match e with
  | TypeError m => m
  | KeyError k => "'" +:+ k +:+ "'"
  | ClientError m => m
  | BadRequest => "400 Bad Request"
  | OtherError m => m
  end.

Inductive outcome (A : Type) : Type :=
| Ret (a : A)
| Raise (e : exn).
Arguments Ret {A} a.
Arguments Raise {A} e.

#[export] Instance outcome_ret : MRet outcome := @Ret.
#[export] Instance outcome_bind : MBind outcome := λ A B f m,
  match m with
  | Ret a => f a
  | Raise e => Raise e
  end.

(** ** Strings *)

(** [needle in hay] on two [str]. *)
Fixpoint str_contains (needle hay : string) : bool :=
  String.prefix needle hay ||
  match hay with
  | EmptyString => false
  | String _ rest => str_contains needle rest
  end.

(** [sep.join(parts)] *)
Definition str_join (sep : string) (parts : list string) : string :=
  String.concat sep parts.

(** ** Dicts *)

Fixpoint dict_get {V : Type} (k : string) (d : list (string * V)) : option V :=
  match d with
  | [] => None
  | (k', v) :: rest => if String.eqb k k' then Some v else dict_get k rest
  end.

Definition dict_has {V : Type} (k : string) (d : list (string * V)) : bool :=
  match dict_get k d with Some _ => true | None => false end.

(** ** Operators on a decoded JSON value *)

(** [x == s] for a [str] s: only an equal [str] is equal to it. *)
Definition eq_str (x : json) (s : string) : bool :=
  match x with
  | JStr t => String.eqb t s
  | _ => false
  end.

(** [key in x]: key membership on a dict, element membership on a list,
    substring on a str; [TypeError] on None, a bool or a number. *)
Definition py_in (key : string) (x : json) : outcome bool :=
  match x with
  | JObj d => Ret (dict_has key d)
  | JArr l => Ret (existsb (λ y, eq_str y key) l)
  | JStr s => Ret (str_contains key s)
  | JNull => Raise (TypeError "argument of type 'NoneType' is not iterable")
  | JBool _ => Raise (TypeError "argument of type 'bool' is not iterable")
  | JInt _ => Raise (TypeError "argument of type 'int' is not iterable")
  | JFloat _ => Raise (TypeError "argument of type 'float' is not iterable")
  end.

(** [x[key]] for a [str] key. *)
Definition py_getitem (x : json) (key : string) : outcome json :=
  match x with
  | JObj d =>
      match dict_get key d with
      | Some v => Ret v
      | None => Raise (KeyError key)
      end
  | JArr _ => Raise (TypeError "list indices must be integers or slices, not str")
  | JStr _ => Raise (TypeError "string indices must be integers, not 'str'")
  | JNull => Raise (TypeError "'NoneType' object is not subscriptable")
  | JBool _ => Raise (TypeError "'bool' object is not subscriptable")
  | JInt _ => Raise (TypeError "'int' object is not subscriptable")
  | JFloat _ => Raise (TypeError "'float' object is not subscriptable")
  end.

(** Truth value of a [str]: the empty string is false. *)
Definition str_truthy (s : string) : bool :=
  match s with EmptyString => false | String _ _ => true end.

(** [[f for f in fields if f not in x]] *)
Fixpoint not_in_filter (fields : list string) (x : json) : outcome (list string) :=
  match fields with
  | [] => Ret []
  | f :: rest =>
      b ← py_in f x;
      tl ← not_in_filter rest x;
      Ret (if b : bool then tl else f :: tl)
  end.

(** ** Code that changes a world and may raise *)

Definition M (W A : Type) : Type := W → outcome A * W.

#[export] Instance M_ret {W} : MRet (M W) := λ A a w, (Ret a, w).
#[export] Instance M_bind {W} : MBind (M W) := λ A B f m w,
  match m w with
  | (Ret a, w') => f a w'
  | (Raise e, w') => (Raise e, w')
  end.

Definition raise {W A} (e : exn) : M W A := λ w, (Raise e, w).

Definition lift {W A} (o : outcome A) : M W A := λ w, (o, w).

(** [try: body  except Exception as e: handler(e)] *)
Definition try_except {W A} (body : M W A) (handler : exn → M W A) : M W A :=
  λ w, match body w with
       | (Ret a, w') => (Ret a, w')
       | (Raise e, w') => handler e w'
       end.

(** [try: body  except ClientError as e: handler(e)]: any other exception
    goes on to the caller. *)
Definition try_except_ClientError {W A}
    (body : M W A) (handler : exn → M W A) : M W A :=
  try_except body (λ e, if is_ClientError e then handler e else raise e).

End Python.

(* ===================================================================== *)
(** * microservices/service1-api/app.py *)
(* ===================================================================== *)

Module Api.
Import Python.

(** The collaborators and the configuration read at import time.
    [ssm_get_parameter k name] is what the k-th call (from 0) of
    [ssm_client.get_parameter(Name=name, WithDecryption=True)] gives after
    [response['Parameter']['Value']]; [sqs_send_message k url body] is what
    the k-th [sqs_client.send_message(QueueUrl=url, MessageBody=body)] gives
    after [response['MessageId']]. *)
Record env : Type := {
  SSM_PARAMETER_NAME : string;
  SQS_QUEUE_URL : option string;
  ssm_get_parameter : nat → string → outcome string;
  sqs_send_message : nat → option string → string → outcome string;
  json_dumps : json → string;
}.

(** The module global [api_token_cache] and what the process has done to
    the collaborators so far: the number of [get_parameter] calls and the
    bodies handed to [send_message], oldest first. *)
Record world : Type := {
  api_token_cache : option string;
  ssm_calls : nat;
  sqs_calls : list string;
}.

(** The state after the module is imported: [api_token_cache = None]. *)
Definition initial_world : world :=
  {| api_token_cache := None; ssm_calls := 0; sqs_calls := [] |}.

Definition set_api_token_cache (v : string) : M world unit := λ w,
  (Ret (), {| api_token_cache := Some v;
              ssm_calls := ssm_calls w;
              sqs_calls := sqs_calls w |}).

Definition call_get_parameter (E : env) : M world string := λ w,
  (ssm_get_parameter E (ssm_calls w) (SSM_PARAMETER_NAME E),
   {| api_token_cache := api_token_cache w;
      ssm_calls := S (ssm_calls w);
      sqs_calls := sqs_calls w |}).

Definition call_send_message (E : env) (body : string) : M world string := λ w,
  (sqs_send_message E (length (sqs_calls w)) (SQS_QUEUE_URL E) body,
   {| api_token_cache := api_token_cache w;
      ssm_calls := ssm_calls w;
      sqs_calls := sqs_calls w ++ [body] |}).

(** [if api_token_cache:] *)
Definition cache_truthy (c : option string) : bool :=
  match c with
  | Some t => str_truthy t
  | None => false
  end.

(** The [try] block of [get_api_token]; the handler logs and re-raises. *)
Definition fetch_api_token (E : env) : M world string :=
  try_except_ClientError
    (v ← call_get_parameter E;
     _ ← set_api_token_cache v;
     mret v)
    (λ e, raise e).

Definition get_api_token (E : env) : M world string := λ w,
  match api_token_cache w with
  | Some t => if str_truthy t then (Ret t, w) else fetch_api_token E w
  | None => fetch_api_token E w
  end.

Definition required_fields : list string :=
  ["email_subject"; "email_sender"; "email_timestream"; "email_content"].

(** [if missing_fields:] *)
Definition list_truthy {A} (l : list A) : bool :=
  match l with [] => false | _ :: _ => true end.

Definition validate_payload (payload : json) : outcome (bool * option string) :=
  has_data ← py_in "data" payload;
  if negb (has_data : bool) then Ret (false, Some "Missing 'data' field") else
  has_token ← py_in "token" payload;
  if negb (has_token : bool) then Ret (false, Some "Missing 'token' field") else
  data ← py_getitem payload "data";
  missing_fields ← not_in_filter required_fields data;
  if list_truthy (missing_fields : list string) then
    Ret (false, Some ("Missing required fields in data: "
                      +:+ str_join ", " missing_fields))
  else Ret (true, None).

Definition validate_token (E : env) (provided_token : json)
  : M world (bool * option string) :=
  try_except
    (expected_token ← get_api_token E;
     if eq_str provided_token expected_token then mret (true, None)
     else mret (false, Some "Invalid ???token"))
    (λ e, mret (false, Some "Token validation failed")).

Definition send_to_sqs (E : env) (data : json) : M world (bool * string) :=
  try_except_ClientError
    (message_id ← call_send_message E (json_dumps E data);
     mret (true, message_id))
    (λ e, mret (false, exn_str e)).

(** What the view reads of the request: [request.is_json] and the value or
    exception of [request.get_json()]. *)
Record request : Type := {
  is_json : bool;
  get_json : outcome json;
}.

(** [jsonify(body), status] *)
Record response : Type := {
  status : nat;
  body : json;
}.

(** [error_msg] as a JSON value: a str, or null for None. *)
Definition json_of_msg (m : option string) : json :=
  match m with Some s => JStr s | None => JNull end.

Definition error_response (m : option string) (code : nat) : response :=
  {| status := code; body := JObj [("error", json_of_msg m)] |}.

Definition health_check : response :=
  {| status := 200; body := JObj [("status", JStr "healthy")] |}.

(** The view of POST /api/message. A [Raise] is an exception that leaves
    the view for Flask. *)
Definition process_message (E : env) (req : request) : M world response :=
  if negb (is_json req) then
    mret (error_response (Some "Content-Type must be application/json") 400)
  else
    payload ← lift (get_json req);
    '(is_valid, error_msg) ← lift (validate_payload payload);
    if negb is_valid then mret (error_response error_msg 400)
    else
      token ← lift (py_getitem payload "token");
      '(is_valid, error_msg) ← validate_token E token;
      if negb is_valid then mret (error_response error_msg 401)
      else
        data ← lift (py_getitem payload "data");
        '(success, result) ← send_to_sqs E data;
        if negb success then
          mret (error_response
                  (Some ("Failed to send message: " +:+ result)) 500)
        else
          mret {| status := 200;
                  body := JObj [("status", JStr "success");
                                ("message", JStr "Message sent to queue");
                                ("message_id", JStr result)] |}.

End Api.

(* ===================================================================== *)
(** * microservices/service2-consumer/app.py *)
(* ===================================================================== *)

Module Consumer.
Import Python.

(** [datetime.utcnow()] *)
Record datetime : Type := {
  year : nat;
  month : nat;
  day : nat;
  hour : nat;
  minute : nat;
  second : nat;
}.

(** An SQS message as the code reads it: a dict from str to str
    ([ReceiptHandle], [MessageId], [Body]). *)
Abbreviation message := (gmap string string).

(** One interaction with a collaborator, with whether it returned ([true])
    or raised ([false]). *)
Inductive event : Type :=
| EvReceiveMessage (ok : bool)
| EvUtcnow (now : datetime)
| EvPutObject (key body : string) (ok : bool)
| EvDeleteMessage (receipt_handle : string) (ok : bool).

(** The collaborators and the configuration. Each collaborator answers by
    the number of interactions made before the call (the length of the
    trace), so that it may answer the same call differently over time. *)
Record env : Type := {
  SQS_QUEUE_URL : option string;
  S3_BUCKET_NAME : option string;
  MAX_MESSAGES : nat;
  sqs_receive_message :
    nat → option string → nat → outcome (option (list message));
  sqs_delete_message : nat → option string → string → outcome unit;
  s3_put_object : nat → option string → string → string → outcome unit;
  utcnow : nat → datetime;
  json_loads : string → option json;
  json_dumps_indent2 : json → string;
}.

(** The objects of the bucket, by key, and the interactions so far, oldest
    first. *)
Record world : Type := {
  s3_objects : gmap string string;
  trace : list event;
}.

Definition is_ret {A} (o : outcome A) : bool :=
  match o with Ret _ => true | Raise _ => false end.

Definition call_utcnow (E : env) : M world datetime := λ w,
  let now := utcnow E (length (trace w)) in
  (Ret now, {| s3_objects := s3_objects w;
               trace := trace w ++ [EvUtcnow now] |}).

(** [s3_client.put_object(Bucket=.., Key=key, Body=body, ContentType=..)]:
    a call that returns has written the object, one that raises has not. *)
Definition call_put_object (E : env) (key body : string) : M world unit := λ w,
  let r := s3_put_object E (length (trace w)) (S3_BUCKET_NAME E) key body in
  (r, {| s3_objects := if is_ret r then <[key := body]> (s3_objects w)
                       else s3_objects w;
         trace := trace w ++ [EvPutObject key body (is_ret r)] |}).

Definition call_delete_message (E : env) (receipt_handle : string)
  : M world unit := λ w,
  let r := sqs_delete_message E (length (trace w)) (SQS_QUEUE_URL E)
             receipt_handle in
  (r, {| s3_objects := s3_objects w;
         trace := trace w ++ [EvDeleteMessage receipt_handle (is_ret r)] |}).

Definition call_receive_message (E : env)
  : M world (option (list message)) := λ w,
  let r := sqs_receive_message E (length (trace w)) (SQS_QUEUE_URL E)
             (MAX_MESSAGES E) in
  (r, {| s3_objects := s3_objects w;
         trace := trace w ++ [EvReceiveMessage (is_ret r)] |}).

(** [message[key]] *)
Definition msg_getitem (m : message) (key : string) : outcome string :=
  match m !! key with
  | Some v => Ret v
  | None => Raise (KeyError key)
  end.

(** [s.zfill(width)] *)
Definition zfill (width : nat) (s : string) : string :=
  String.concat "" (replicate (width - String.length s) "0") +:+ s.

(** [f"{n}"] and [f"{n:02d}"] for an int that is not negative. *)
Definition format_d (n : nat) : string := pretty n.
Definition format_02d (n : nat) : string := zfill 2 (pretty n).

Definition s3_key (now : datetime) (message_id : string) : string :=
  "messages/" +:+ format_d (year now) +:+ "/" +:+ format_02d (month now)
  +:+ "/" +:+ format_02d (day now) +:+ "/" +:+ message_id +:+ ".json".

Definition upload_to_s3 (E : env) (message_data : json) (message_id : string)
  : M world bool :=
  try_except_ClientError
    (now ← call_utcnow E;
     _ ← call_put_object E (s3_key now message_id)
           (json_dumps_indent2 E message_data);
     mret true)
    (λ e, mret false).

Definition process_message (E : env) (m : message) : M world bool :=
  try_except
    (receipt_handle ← lift (msg_getitem m "ReceiptHandle");
     message_id ← lift (msg_getitem m "MessageId");
     body ← lift (msg_getitem m "Body");
     match json_loads E body with
     | None => mret false
     | Some message_data =>
         uploaded ← upload_to_s3 E message_data message_id;
         if negb (uploaded : bool) then mret false
         else
           _ ← call_delete_message E receipt_handle;
           mret true
     end)
    (λ e, mret false).

(** The [for message in messages] loop with its counter. *)
Fixpoint process_each (E : env) (messages : list message) (successful : nat)
  : M world nat :=
  match messages with
  | [] => mret successful
  | m :: rest =>
      ok ← process_message E m;
      process_each E rest (if ok : bool then S successful else successful)
  end.

Definition poll_sqs (E : env) : M world nat :=
  try_except_ClientError
    (response ← call_receive_message E;
     let messages := default [] (response : option (list message)) in
     match messages with
     | [] => mret 0
     | _ :: _ => process_each E messages 0
     end)
    (λ e, mret 0).

End Consumer.

(** ** The entry point of the consumer: [main] *)

Module ConsumerMain.
Import Python Consumer.

(** The consumer's world and the [time.sleep] calls made so far, oldest
    first, by their number of seconds. *)
Record main_world : Type := {
  consumer : world;
  sleeps : list nat;
}.

(** Truth value of what [os.getenv] returned: None and the empty string are
    false. *)
Definition getenv_truthy (v : option string) : bool :=
  match v with
  | Some s => str_truthy s
  | None => false
  end.

(** The two [if not ...: raise ValueError(...)] of [main]; ValueError is
    kept as [OtherError] with its message. *)
Definition check_configuration (E : env) : outcome unit :=
  if negb (getenv_truthy (SQS_QUEUE_URL E)) then
    Raise (OtherError "SQS_QUEUE_URL environment variable is required")
  else if negb (getenv_truthy (S3_BUCKET_NAME E)) then
    Raise (OtherError "S3_BUCKET_NAME environment variable is required")
  else Ret ().

(** Consumer code run inside [main]. *)
Definition in_consumer {A} (body : M world A) : M main_world A := λ mw,
  let '(r, w') := body (consumer mw) in
  (r, {| consumer := w'; sleeps := sleeps mw |}).

(** [time.sleep(seconds)], for a number of seconds that is not negative. *)
Definition call_sleep (seconds : nat) : M main_world unit := λ mw,
  (Ret (), {| consumer := consumer mw; sleeps := sleeps mw ++ [seconds] |}).

(** One turn of the [while True] loop, [POLL_INTERVAL] being
    [poll_interval]. *)
Definition main_cycle (E : env) (poll_interval : nat) : M main_world unit :=
  try_except
    (_ ← in_consumer (poll_sqs E);
     call_sleep poll_interval)
    (λ e, call_sleep poll_interval).

(** The first [n] turns of the loop: it has no exit but KeyboardInterrupt,
    which arrives from outside. *)
Fixpoint main_cycles (E : env) (poll_interval n : nat) : M main_world unit :=
  match n with
  | 0 => mret ()
  | S k =>
      _ ← main_cycle E poll_interval;
      main_cycles E poll_interval k
  end.

(** [main()] interrupted after [n] turns. *)
Definition main (E : env) (poll_interval n : nat) : M main_world unit :=
  _ ← lift (check_configuration E);
  main_cycles E poll_interval n.

End ConsumerMain.

(** ** The queue between the two services *)

Module Relay.

(** The message SQS delivers for a body that was sent: the id it returned
    to the sender, a receipt handle, and the body. *)
Definition delivered (message_id receipt_handle body : string)
  : gmap string string :=
  {[ "MessageId" := message_id;
     "ReceiptHandle" := receipt_handle;
     "Body" := body ]}.

End Relay.

(* ===================================================================== *)
(** * microservices/e2e_test/e2e_test.py: waiting for the object *)
(* ===================================================================== *)

Module E2E.
Import Python.

(** What the test reads of the world in the turn number [k] (from 0) of
    its waiting loop: the clock, the keys of
    [s3.list_objects_v2(Bucket=.., Prefix=prefix)] (None when the response
    has no [Contents]), and the body of [s3.get_object(Bucket=.., Key=key)]. *)
Record env : Type := {
  utcnow : nat → Consumer.datetime;
  s3_list_objects_v2 : nat → string → outcome (option (list string));
  s3_get_object : nat → string → outcome string;
  json_loads : string → option json;
}.

Definition max_wait_time : nat := 60.
Definition check_interval : nat := 5.

(** [f"messages/{now.year}/{now.month:02d}/{now.day:02d}/"] *)
Definition prefix (now : Consumer.datetime) : string :=
  "messages/" +:+ Consumer.format_d (Consumer.year now) +:+ "/"
  +:+ Consumer.format_02d (Consumer.month now) +:+ "/"
  +:+ Consumer.format_02d (Consumer.day now) +:+ "/".

(** [json.loads(text)]: a body that does not parse raises. *)
Definition loads_or_raise (E : env) (text : string) : outcome json :=
  match json_loads E text with
  | Some v => Ret v
  | None => Raise (OtherError "JSONDecodeError")
  end.

(** [x.get(key)]: the value or None on a dict, AttributeError on anything
    else. *)
Definition py_get (x : json) (key : string) : outcome json :=
  match x with
  | JObj d => Ret (default JNull (dict_get key d))
  | _ => Raise (OtherError "AttributeError")
  end.

(** The [for obj in response['Contents']] loop: the key of the first
    object whose [email_subject] is the subject of the test, where the
    loop breaks. *)
Fixpoint scan (E : env) (k : nat) (test_subject : string)
    (keys : list string) : outcome (option string) :=
  match keys with
  | [] => Ret None
  | key :: rest =>
      text ← s3_get_object E k key;
      file_content ← loads_or_raise E text;
      subject ← py_get file_content "email_subject";
      if eq_str subject test_subject then Ret (Some key)
      else scan E k test_subject rest
  end.

(** The [try] block of one turn, with its [except Exception] that prints
    and goes on: the key found, if any. *)
Definition look (E : env) (k : nat) (test_subject : string)
  : option string :=
  match
    (response ← s3_list_objects_v2 E k (prefix (utcnow E k));
     match response : option (list string) with
     | None => Ret None
     | Some keys => scan E k test_subject keys
     end)
  with
  | Ret found => found
  | Raise _ => None
  end.

(** The variables of the loop, and the number of turns made. *)
Record wait_state : Type := {
  elapsed : nat;
  file_found : bool;
  s3_key : option string;
  turns : nat;
}.

Definition wait_start : wait_state :=
  {| elapsed := 0; file_found := false; s3_key := None; turns := 0 |}.

(** The body of the [while]. *)
Definition wait_turn (E : env) (test_subject : string) (st : wait_state)
  : wait_state :=
  match look E (turns st) test_subject with
  | Some key =>
      {| elapsed := elapsed st + check_interval;
         file_found := true;
         s3_key := Some key;
         turns := S (turns st) |}
  | None =>
      {| elapsed := elapsed st + check_interval;
         file_found := file_found st;
         s3_key := s3_key st;
         turns := S (turns st) |}
  end.

(** [while elapsed < max_wait_time and not file_found:], for at most
    [fuel] turns: None when the fuel runs out before the loop ends. *)
Fixpoint wait_loop (E : env) (test_subject : string) (fuel : nat)
    (st : wait_state) : option wait_state :=
  if (elapsed st <? max_wait_time) && negb (file_found st) then
    match fuel with
    | 0 => None
    | S fuel' => wait_loop E test_subject fuel' (wait_turn E test_subject st)
    end
  else Some st.

End E2E.

(* ===================================================================== *)
(** * Fixtures of the test suites *)
(* ===================================================================== *)

Module Fixtures.
Import Python.

(** [json.dumps(x)] with the default separators, for values whose strings
    need no escape beyond the quote and the backslash. *)
Fixpoint escape (s : string) : string :=
  match s with
  | EmptyString => EmptyString
  | String c rest =>
      if Ascii.eqb c "034"%char || Ascii.eqb c "\"%char
      then String "\"%char (String c (escape rest))
      else String c (escape rest)
  end.

Definition quote (s : string) : string :=
  String "034"%char (escape s) +:+ String "034"%char "".

Fixpoint dumps (x : json) : string :=
  match x with
  | JNull => "null"
  | JBool b => if b then "true" else "false"
  | JInt z => pretty z
  | JFloat repr => repr
  | JStr s => quote s
  | JArr items => "[" +:+ str_join ", " (map dumps items) +:+ "]"
  | JObj fields =>
      "{" +:+ str_join ", "
                (map (λ kv, quote (fst kv) +:+ ": " +:+ dumps (snd kv)) fields)
      +:+ "}"
  end.

(** test_app.py, fixture [valid_payload] and its [data]. *)
Definition valid_data : json :=
  JObj [("email_subject", JStr "Test Subject");
        ("email_sender", JStr "sender@example.com");
        ("email_timestream", JStr "2024-01-01T12:00:00Z");
        ("email_content", JStr "Test content")].

Definition valid_payload : json :=
  JObj [("data", valid_data); ("token", JStr "test-secret-token-12345")].

(** [valid_payload['token'] = 'wrong-token'] *)
Definition wrong_token_payload : json :=
  JObj [("data", valid_data); ("token", JStr "wrong-token")].

(** A body with a token and nothing else. *)
Definition token_only_payload : json :=
  JObj [("token", JStr "wrong-token")].

(** [del valid_payload['data']['email_subject']] and
    [del valid_payload['data']['email_content']] *)
Definition two_fields_payload : json :=
  JObj [("data", JObj [("email_sender", JStr "sender@example.com");
                       ("email_timestream", JStr "2024-01-01T12:00:00Z")]);
        ("token", JStr "test-secret-token-12345")].

(** A body whose [data] is a number. *)
Definition scalar_data_payload : json :=
  JObj [("data", JInt 5); ("token", JStr "test-secret-token-12345")].

Definition post (payload : json) : Api.request :=
  {| Api.is_json := true; Api.get_json := Ret payload |}.

(** A parameter store that holds [secret], and a queue that accepts every
    message and numbers them. *)
Definition api_env (secret : string) : Api.env :=
  {| Api.SSM_PARAMETER_NAME := "/devops-exam/dev/api-token";
     Api.SQS_QUEUE_URL := Some "test-queue";
     Api.ssm_get_parameter := λ _ _, Ret secret;
     Api.sqs_send_message := λ k _ _, Ret ("msg-" +:+ pretty k);
     Api.json_dumps := dumps |}.

(** A parameter store that cannot be reached. *)
Definition api_env_ssm_down : Api.env :=
  {| Api.SSM_PARAMETER_NAME := "/devops-exam/dev/api-token";
     Api.SQS_QUEUE_URL := Some "test-queue";
     Api.ssm_get_parameter := λ _ _, Raise (ClientError "ParameterNotFound");
     Api.sqs_send_message := λ k _ _, Ret ("msg-" +:+ pretty k);
     Api.json_dumps := dumps |}.

(** [json.dumps(x, indent=2)]: one item per line, two spaces per level. *)
Definition newline (level : nat) : string :=
  String "010"%char (String.concat "" (replicate (2 * level) " ")).

Fixpoint dumps_indent (level : nat) (x : json) : string :=
  match x with
  | JArr items =>
      match items with
      | [] => "[]"
      | _ :: _ =>
          "[" +:+ newline (S level)
          +:+ str_join ("," +:+ newline (S level))
                (map (dumps_indent (S level)) items)
          +:+ newline level +:+ "]"
      end
  | JObj fields =>
      match fields with
      | [] => "{}"
      | _ :: _ =>
          "{" +:+ newline (S level)
          +:+ str_join ("," +:+ newline (S level))
                (map (λ kv, quote (fst kv) +:+ ": "
                            +:+ dumps_indent (S level) (snd kv)) fields)
          +:+ newline level +:+ "}"
      end
  | _ => dumps x
  end.

(** service2-consumer/test_app.py, fixtures [sample_message_data] and
    [sqs_message], and the message of test_process_message_invalid_json. *)
Definition sample_message_data : json :=
  JObj [("email_subject", JStr "Test Subject");
        ("email_sender", JStr "sender@example.com");
        ("email_timestream", JStr "2024-01-01T12:00:00Z");
        ("email_content", JStr "Test email content")].

Definition sqs_message : gmap string string :=
  {[ "MessageId" := "test-message-id-12345";
     "ReceiptHandle" := "test-receipt-handle";
     "Body" := dumps sample_message_data ]}.

Definition invalid_message : gmap string string :=
  {[ "MessageId" := "test-123";
     "ReceiptHandle" := "test-receipt";
     "Body" := "not valid json" ]}.

(** The parser on the bodies of the fixtures: the encoding of
    [sample_message_data] parses back to it, the other body does not parse. *)
Definition loads (body : string) : option json :=
  if String.eqb body (dumps sample_message_data)
  then Some sample_message_data else None.

(** 2024-01-01 at [h] o'clock. *)
Definition new_year_2024 (h : nat) : Consumer.datetime :=
  {| Consumer.year := 2024; Consumer.month := 1; Consumer.day := 1;
     Consumer.hour := h; Consumer.minute := 0; Consumer.second := 0 |}.

(** A queue that hands out [batch] and deletes on request, a bucket that
    stores when [bucket_exists], and a clock that shows an hour of
    2024-01-01 that moves on with every interaction. *)
Definition consumer_env (batch : list (gmap string string))
    (bucket_exists : bool) : Consumer.env :=
  {| Consumer.SQS_QUEUE_URL := Some "test-queue";
     Consumer.S3_BUCKET_NAME := Some "test-bucket";
     Consumer.MAX_MESSAGES := 10;
     Consumer.sqs_receive_message := λ _ _ _, Ret (Some batch);
     Consumer.sqs_delete_message := λ _ _ _, Ret ();
     Consumer.s3_put_object := λ _ _ _ _,
       if bucket_exists then Ret () else Raise (ClientError "NoSuchBucket");
     Consumer.utcnow := λ k, new_year_2024 (k `mod` 24);
     Consumer.json_loads := loads;
     Consumer.json_dumps_indent2 := dumps_indent 0 |}.

Definition empty_world : Consumer.world :=
  {| Consumer.s3_objects := ∅; Consumer.trace := [] |}.

(** A queue that refuses every message. *)
Definition api_env_sqs_down (secret : string) : Api.env :=
  {| Api.SSM_PARAMETER_NAME := "/devops-exam/dev/api-token";
     Api.SQS_QUEUE_URL := Some "test-queue";
     Api.ssm_get_parameter := λ _ _, Ret secret;
     Api.sqs_send_message := λ _ _ _,
       Raise (ClientError "AWS.SimpleQueueService.NonExistentQueue");
     Api.json_dumps := dumps |}.

(** A parameter store that raises on the first two calls and answers from
    the third on. *)
Definition api_env_flaky (secret : string) : Api.env :=
  {| Api.SSM_PARAMETER_NAME := "/devops-exam/dev/api-token";
     Api.SQS_QUEUE_URL := Some "test-queue";
     Api.ssm_get_parameter := λ k _,
       if k <? 2 then Raise (ClientError "ThrottlingException")
       else Ret secret;
     Api.sqs_send_message := λ k _ _, Ret ("msg-" +:+ pretty k);
     Api.json_dumps := dumps |}.

(** Bodies whose [data] is a str, a list, and a body that is a list. *)
Definition str_data_payload : json :=
  JObj [("data",
         JStr "email_subject,email_sender,email_timestream,email_content");
        ("token", JStr "test-secret-token-12345")].

Definition list_data_payload : json :=
  JObj [("data", JArr [JStr "email_subject"; JStr "email_sender";
                       JStr "email_timestream"; JStr "email_content"]);
        ("token", JStr "test-secret-token-12345")].

Definition list_payload : json := JArr [JStr "data"; JStr "token"].

(** A body that carries [sample_message_data]. *)
Definition relay_payload : json :=
  JObj [("data", sample_message_data);
        ("token", JStr "test-secret-token-12345")].

(** A queue whose [delete_message] raises. *)
Definition consumer_env_delete_fails (batch : list (gmap string string))
  : Consumer.env :=
  {| Consumer.SQS_QUEUE_URL := Some "test-queue";
     Consumer.S3_BUCKET_NAME := Some "test-bucket";
     Consumer.MAX_MESSAGES := 10;
     Consumer.sqs_receive_message := λ _ _ _, Ret (Some batch);
     Consumer.sqs_delete_message := λ _ _ _,
       Raise (ClientError "ReceiptHandleIsInvalid");
     Consumer.s3_put_object := λ _ _ _ _, Ret ();
     Consumer.utcnow := λ k, new_year_2024 (k `mod` 24);
     Consumer.json_loads := loads;
     Consumer.json_dumps_indent2 := dumps_indent 0 |}.

(** A queue that cannot be reached, by a botocore error that is not a
    [ClientError]. *)
Definition consumer_env_unreachable : Consumer.env :=
  {| Consumer.SQS_QUEUE_URL := Some "test-queue";
     Consumer.S3_BUCKET_NAME := Some "test-bucket";
     Consumer.MAX_MESSAGES := 10;
     Consumer.sqs_receive_message := λ _ _ _,
       Raise (OtherError "EndpointConnectionError");
     Consumer.sqs_delete_message := λ _ _ _, Ret ();
     Consumer.s3_put_object := λ _ _ _ _, Ret ();
     Consumer.utcnow := λ k, new_year_2024 (k `mod` 24);
     Consumer.json_loads := loads;
     Consumer.json_dumps_indent2 := dumps_indent 0 |}.

(** The settings of the test suite with an empty bucket name. *)
Definition consumer_env_no_bucket : Consumer.env :=
  {| Consumer.SQS_QUEUE_URL := Some "test-queue";
     Consumer.S3_BUCKET_NAME := Some "";
     Consumer.MAX_MESSAGES := 10;
     Consumer.sqs_receive_message := λ _ _ _, Ret None;
     Consumer.sqs_delete_message := λ _ _ _, Ret ();
     Consumer.s3_put_object := λ _ _ _ _, Ret ();
     Consumer.utcnow := λ k, new_year_2024 (k `mod` 24);
     Consumer.json_loads := loads;
     Consumer.json_dumps_indent2 := dumps_indent 0 |}.

Definition empty_main_world : ConsumerMain.main_world :=
  {| ConsumerMain.consumer := empty_world; ConsumerMain.sleeps := [] |}.

(** A bucket for the end-to-end test: from the turn [ready] on, the
    listing shows an object that does not parse and then the object of the
    sample message. *)
Definition e2e_env (ready : nat) (broken_first : bool) : E2E.env :=
  {| E2E.utcnow := λ k, new_year_2024 (k `mod` 24);
     E2E.s3_list_objects_v2 := λ k _,
       if k <? ready then Ret None
       else Ret (Some (if broken_first
                       then ["messages/2024/01/01/broken.json";
                             "messages/2024/01/01/msg-0.json"]
                       else ["messages/2024/01/01/msg-0.json"]));
     E2E.s3_get_object := λ _ key,
       if String.eqb key "messages/2024/01/01/msg-0.json"
       then Ret (dumps sample_message_data)
       else Ret "not valid json";
     E2E.json_loads := loads |}.

End Fixtures.

(* ===================================================================== *)
(** * Vocabulary of the properties *)
(* ===================================================================== *)

Module ApiNotions.
Import Python Api.

(** A required field that [data] does not have. *)
Definition absent (d : list (string * json)) (f : string) : bool :=
  negb (dict_has f d).

(** [n] calls of [get_api_token] one after the other: what each returned
    and the world after the last. *)
Fixpoint get_api_token_calls (E : env) (n : nat) (w : world)
  : list (outcome string) * world :=
  match n with
  | 0 => ([], w)
  | S k =>
      let '(r, w1) := get_api_token E w in
      let '(rs, w2) := get_api_token_calls E k w1 in
      (r :: rs, w2)
  end.

(** The world after [send_message] was called with [body]. *)
Definition enqueued (w : world) (body : string) : world :=
  {| api_token_cache := api_token_cache w;
     ssm_calls := ssm_calls w;
     sqs_calls := sqs_calls w ++ [body] |}.

(** What [process_message] does once the payload has passed validation. *)
Definition authenticate_and_forward (E : env) (token data : json)
  : M world response :=
  '(is_valid, error_msg) ← validate_token E token;
  if negb is_valid then mret (error_response error_msg 401)
  else
    '(success, result) ← send_to_sqs E data;
    if negb success then
      mret (error_response (Some ("Failed to send message: " +:+ result)) 500)
    else
      mret {| status := 200;
              body := JObj [("status", JStr "success");
                            ("message", JStr "Message sent to queue");
                            ("message_id", JStr result)] |}.

(** Whether the k-th [get_parameter] call returns a secret that is not the
    empty string, and how many of the first [n] calls do. *)
Definition fetch_fills_cache (E : env) (k : nat) : bool :=
  match ssm_get_parameter E k (SSM_PARAMETER_NAME E) with
  | Ret v => str_truthy v
  | Raise _ => false
  end.

Definition filling_fetches (E : env) (n : nat) : nat :=
  length (List.filter (fetch_fills_cache E) (seq 0 n)).

(** The cache is filled exactly when one fetch has filled it. *)
Definition cache_counts (E : env) (w : world) : Prop :=
  filling_fetches E (ssm_calls w)
  = if cache_truthy (api_token_cache w) then 1 else 0.

(** The answer of the view once the token is known to be the secret. *)
Definition forwarded (E : env) (data : json) (w1 : world)
  : outcome response :=
  match sqs_send_message E (length (sqs_calls w1)) (SQS_QUEUE_URL E)
          (json_dumps E data) with
  | Ret message_id =>
      Ret {| status := 200;
             body := JObj [("status", JStr "success");
                           ("message", JStr "Message sent to queue");
                           ("message_id", JStr message_id)] |}
  | Raise e =>
      if is_ClientError e then
        Ret (error_response
               (Some ("Failed to send message: " +:+ exn_str e)) 500)
      else Raise e
  end.

(** The requests of a list served one after the other: the outcome of each
    and the world after the last. *)
Fixpoint serve_all (E : env) (reqs : list request) (w : world)
  : list (outcome response) * world :=
  match reqs with
  | [] => ([], w)
  | req :: rest =>
      let '(r, w1) := process_message E req w in
      let '(rs, w2) := serve_all E rest w1 in
      (r :: rs, w2)
  end.

End ApiNotions.

Module ConsumerNotions.
Import Python Consumer.

(** The world after the clock was read and [put_object] was called. *)
Definition stored (E : env) (w : world) (key body : string) (ok : bool)
  : world :=
  {| s3_objects := if ok then <[key := body]> (s3_objects w)
                   else s3_objects w;
     trace := trace w ++ [EvUtcnow (utcnow E (length (trace w)));
                          EvPutObject key body ok] |}.

(** What one call of [process_message] can return and add to the trace:
    nothing at all, a failed upload, an upload followed by a failed delete,
    or an upload followed by a delete. The upload is the one of this
    message (its key is made of the time read just before and of the
    message id) and the delete carries its receipt handle. *)
Inductive handled (m : message) : bool → list event → Prop :=
| handled_skipped :
    handled m false []
| handled_upload_failed now message_id body :
    m !! "MessageId" = Some message_id →
    handled m false
      [EvUtcnow now; EvPutObject (s3_key now message_id) body false]
| handled_delete_failed now message_id body receipt_handle :
    m !! "MessageId" = Some message_id →
    m !! "ReceiptHandle" = Some receipt_handle →
    handled m false
      [EvUtcnow now; EvPutObject (s3_key now message_id) body true;
       EvDeleteMessage receipt_handle false]
| handled_done now message_id body receipt_handle :
    m !! "MessageId" = Some message_id →
    m !! "ReceiptHandle" = Some receipt_handle →
    handled m true
      [EvUtcnow now; EvPutObject (s3_key now message_id) body true;
       EvDeleteMessage receipt_handle true].

(** The bucket after the uploads of a piece of trace. *)
Definition replay (objects : gmap string string) (evs : list event)
  : gmap string string :=
  foldl (λ o ev, match ev with
                 | EvPutObject key body true => <[key := body]> o
                 | _ => o
                 end) objects evs.

(** The messages of a batch handled one after the other, each in the world
    the one before left, with what [process_message] returned for each. *)
Inductive batch_run (E : env)
  : list message → world → list bool → world → Prop :=
| batch_run_nil w :
    batch_run E [] w [] w
| batch_run_cons m ms w b w1 bs w2 :
    process_message E m w = (Ret b, w1) →
    batch_run E ms w1 bs w2 →
    batch_run E (m :: ms) w (b :: bs) w2.

(** How many results are True. *)
Definition successes (results : list bool) : nat :=
  length (List.filter (λ b : bool, b) results).

(** The world after [receive_message] returned. *)
Definition received (w : world) : world :=
  {| s3_objects := s3_objects w;
     trace := trace w ++ [EvReceiveMessage true] |}.

(** What [datetime] guarantees of a date. *)
Definition valid_date (now : datetime) : Prop :=
  1 ≤ year now ∧ 1 ≤ month now ≤ 12 ∧ 1 ≤ day now ≤ 31.

(** Two moments of one date. *)
Definition same_day (a b : datetime) : Prop :=
  year a = year b ∧ month a = month b ∧ day a = day b.

(** The key as the specification writes it,
    messages/{year}/{month:02}/{day:02}/{message_id}.json: the year in
    decimal, then the tens digit and the units digit of the month and of
    the day. *)
Definition digit (d : nat) : ascii := ascii_of_nat (48 + d).

Definition two_digits (n : nat) : string :=
  String (digit (n / 10)) (String (digit (n `mod` 10)) "").

Definition spec_key (y m d : nat) (message_id : string) : string :=
  "messages/" +:+ pretty y +:+ "/" +:+ two_digits m +:+ "/" +:+ two_digits d
  +:+ "/" +:+ message_id +:+ ".json".

(** ** Words for a whole cycle *)

Definition is_acknowledgement (ev : event) : bool :=
  match ev with
  | EvDeleteMessage _ true => true
  | _ => false
  end.

(** How many [delete_message] calls of a piece of trace returned. *)
Definition acknowledged (evs : list event) : nat :=
  length (List.filter is_acknowledgement evs).

(** Every [delete_message] call of a piece of trace comes right after a
    [put_object] call that returned. *)
Definition deletes_follow_uploads (evs : list event) : Prop :=
  ∀ i receipt_handle ok,
    evs !! i = Some (EvDeleteMessage receipt_handle ok) →
    ∃ j key body, i = S j ∧ evs !! j = Some (EvPutObject key body true).

(** The consumer's world after [n] cycles. *)
Fixpoint poll_cycles (E : env) (n : nat) (w : world) : world :=
  match n with
  | 0 => w
  | S k => poll_cycles E k (snd (poll_sqs E w))
  end.

(** A string without the character that separates the parts of a key. *)
Fixpoint no_slash (s : string) : bool :=
  match s with
  | EmptyString => true
  | String c rest => negb (Ascii.eqb c "/"%char) && no_slash rest
  end.

End ConsumerNotions.

Module E2ENotions.
Import Python E2E.

(** What the test makes of one listed object: its subject is the one
    looked for, it is another object, or reading it raises (the object
    cannot be fetched, its body does not parse, or it is not a JSON
    object). *)
Inductive verdict : Type := Match | NoMatch | Unreadable.

Definition inspect (E : env) (k : nat) (test_subject key : string)
  : verdict :=
  match s3_get_object E k key with
  | Raise _ => Unreadable
  | Ret text =>
      match json_loads E text with
      | Some (JObj d) =>
          match dict_get "email_subject" d with
          | Some (JStr s) => if String.eqb s test_subject then Match
                             else NoMatch
          | _ => NoMatch
          end
      | _ => Unreadable
      end
  end.

(** What holds of the variables of the loop after every turn. *)
Definition wait_invariant (E : env) (test_subject : string)
    (st : wait_state) : Prop :=
  elapsed st = check_interval * turns st
  ∧ turns st ≤ 12
  ∧ (file_found st = false →
     s3_key st = None ∧ ∀ j, j < turns st → look E j test_subject = None)
  ∧ (file_found st = true →
     ∃ j key,
       turns st = S j ∧ s3_key st = Some key
       ∧ look E j test_subject = Some key
       ∧ ∀ i, i < j → look E i test_subject = None).

End E2ENotions.

(* ===================================================================== *)
(** * Properties of the ingress service *)
(* ===================================================================== *)

Module ApiSpec.
Import Python Api ApiNotions.

(** ** Running monadic code *)

Lemma bind_ext {W A B} (m : M W A) (f g : A → M W B) w :
  (∀ a w', f a w' = g a w') → (m ≫= f) w = (m ≫= g) w.
Proof.
  intros H. unfold mbind, M_bind. by destruct (m w) as [[a|e] w'].
Qed.

Lemma bind_lift_ret {W A B} (o : outcome A) (f : A → M W B) w a :
  o = Ret a → (lift o ≫= f) w = f a w.
Proof. intros ->. reflexivity. Qed.

Lemma bind_lift_raise {W A B} (o : outcome A) (f : A → M W B) (w : W) e :
  o = Raise e → (lift o ≫= f) w = (Raise e, w).
Proof. intros ->. reflexivity. Qed.

(** ** The payload validator *)

Lemma not_in_filter_dict fs d :
  not_in_filter fs (JObj d) = Ret (List.filter (absent d) fs).
Proof.
  induction fs as [|f fs IH]; simpl; [done|].
  rewrite IH. unfold absent. simpl. by destruct (dict_has f d).
Qed.

Lemma filter_sublist {A} (p : A → bool) (l : list A) :
  List.filter p l `sublist_of` l.
Proof.
  induction l as [|x l IH]; simpl; [constructor|].
  destruct (p x); by constructor.
Qed.

Lemma dict_has_get {V} k (d : list (string * V)) v :
  dict_get k d = Some v → dict_has k d = true.
Proof. unfold dict_has. by intros ->. Qed.

Lemma dict_has_true {V} k (d : list (string * V)) :
  dict_has k d = true → ∃ v, dict_get k d = Some v.
Proof. unfold dict_has. destruct (dict_get k d); [eauto | done]. Qed.

Lemma validate_payload_no_data fields :
  dict_has "data" fields = false →
  validate_payload (JObj fields) = Ret (false, Some "Missing 'data' field").
Proof. intros H. unfold validate_payload. simpl. by rewrite H. Qed.

Lemma validate_payload_no_token fields :
  dict_has "data" fields = true →
  dict_has "token" fields = false →
  validate_payload (JObj fields) = Ret (false, Some "Missing 'token' field").
Proof. intros Hd Ht. unfold validate_payload. simpl. by rewrite Hd, Ht. Qed.

(** With both keys present the verdict is that of the field check on
    [payload['data']]. *)
Lemma validate_payload_fields fields data :
  dict_get "data" fields = Some data →
  dict_has "token" fields = true →
  validate_payload (JObj fields) =
    (missing_fields ← not_in_filter required_fields data;
     if list_truthy missing_fields then
       Ret (false, Some ("Missing required fields in data: "
                         +:+ str_join ", " missing_fields))
     else Ret (true, None)).
Proof.
  intros Hd Ht. unfold validate_payload. simpl.
  rewrite (dict_has_get _ _ _ Hd), Ht. simpl. by rewrite Hd.
Qed.

(** A payload that passes is a dict with both keys. *)
Lemma validate_payload_true_inv payload msg :
  validate_payload payload = Ret (true, msg) →
  ∃ fields data token,
    payload = JObj fields ∧
    dict_get "data" fields = Some data ∧
    dict_get "token" fields = Some token ∧
    msg = None.
Proof.
  intros H. destruct payload as [| | | | s | l | fields]; try discriminate.
  - unfold validate_payload in H. simpl in H.
    destruct (str_contains "data" s); [|discriminate]. simpl in H.
    destruct (str_contains "token" s); discriminate.
  - unfold validate_payload in H. simpl in H.
    destruct (existsb _ l); [|discriminate]. simpl in H.
    destruct (existsb _ l); discriminate.
  - destruct (dict_has "data" fields) eqn:Hd;
      [|by rewrite validate_payload_no_data in H].
    destruct (dict_has "token" fields) eqn:Ht;
      [|by rewrite validate_payload_no_token in H].
    destruct (dict_has_true _ _ Hd) as [data Hdata].
    destruct (dict_has_true _ _ Ht) as [token Htoken].
    exists fields, data, token. split_and!; try done.
    rewrite (validate_payload_fields _ _ Hdata Ht) in H.
    destruct (not_in_filter required_fields data) as [missing|]; [|done].
    simpl in H. destruct (list_truthy missing); congruence.
Qed.

(** C2. The validator applies its three checks in order and the first
    failure wins: a dict without [data] is reported as missing [data]
    whatever else it holds; with [data] but without [token] it is reported
    as missing [token] whatever [data] holds; with both keys and a dict
    under [data] that lacks some required field the reason is the fixed
    prefix followed by the comma-joined list of exactly the absent required
    fields, in the order email_subject, email_sender, email_timestream,
    email_content. *)
Theorem validate_payload_reports_missing_in_order :
  ∀ fields : list (string * json),
    (dict_has "data" fields = false →
     validate_payload (JObj fields) = Ret (false, Some "Missing 'data' field"))
    ∧ (dict_has "data" fields = true →
       dict_has "token" fields = false →
       validate_payload (JObj fields)
       = Ret (false, Some "Missing 'token' field"))
    ∧ (∀ d : list (string * json),
         dict_get "data" fields = Some (JObj d) →
         dict_has "token" fields = true →
         (∃ f, f ∈ required_fields ∧ dict_has f d = false) →
         ∃ missing : list string,
           validate_payload (JObj fields)
           = Ret (false, Some ("Missing required fields in data: "
                               +:+ str_join ", " missing))
           ∧ missing `sublist_of`
               ["email_subject"; "email_sender";
                "email_timestream"; "email_content"]
           ∧ ∀ f, f ∈ missing ↔ f ∈ required_fields ∧ dict_has f d = false).
Proof.
  intros fields. split_and!.
  - apply validate_payload_no_data.
  - apply validate_payload_no_token.
  - intros d Hd Ht (f & Hf & Habs).
    remember (List.filter (absent d) required_fields) as missing eqn:Hm.
    exists missing.
    assert (Hin : ∀ g, g ∈ missing
                       ↔ g ∈ required_fields ∧ dict_has g d = false).
    { intros g. rewrite Hm, !list_elem_of_In, filter_In. unfold absent.
      by rewrite negb_true_iff. }
    split_and!; [| rewrite Hm; apply filter_sublist | done].
    rewrite (validate_payload_fields _ _ Hd Ht), not_in_filter_dict, <- Hm.
    destruct missing as [|x l]; [|done].
    exfalso. assert (f ∈ @nil string) as Hnil by (by apply Hin).
    by apply not_elem_of_nil in Hnil.
Qed.

(** ** The secret and its cache *)

Lemma fetch_api_token_run E w :
  fetch_api_token E w =
    match ssm_get_parameter E (ssm_calls w) (SSM_PARAMETER_NAME E) with
    | Ret v => (Ret v, {| api_token_cache := Some v;
                          ssm_calls := S (ssm_calls w);
                          sqs_calls := sqs_calls w |})
    | Raise e => (Raise e, {| api_token_cache := api_token_cache w;
                              ssm_calls := S (ssm_calls w);
                              sqs_calls := sqs_calls w |})
    end.
Proof.
  unfold fetch_api_token, try_except_ClientError, try_except, mbind, M_bind,
    call_get_parameter, set_api_token_cache, mret, M_ret, raise.
  destruct (ssm_get_parameter E (ssm_calls w) (SSM_PARAMETER_NAME E)) as [v|e];
    [done|]. simpl. by destruct (is_ClientError e).
Qed.

Lemma get_api_token_cached E w t :
  api_token_cache w = Some t → str_truthy t = true →
  get_api_token E w = (Ret t, w).
Proof. intros Hc Ht. unfold get_api_token. by rewrite Hc, Ht. Qed.

Lemma get_api_token_cold E w :
  cache_truthy (api_token_cache w) = false →
  get_api_token E w = fetch_api_token E w.
Proof.
  unfold get_api_token, cache_truthy.
  destruct (api_token_cache w) as [t|]; [|done]. by intros ->.
Qed.

(** Reading the secret leaves the queue alone. *)
Lemma get_api_token_sqs_calls E w r w1 :
  get_api_token E w = (r, w1) → sqs_calls w1 = sqs_calls w.
Proof.
  unfold get_api_token.
  destruct (api_token_cache w) as [t|]; [destruct (str_truthy t)|];
    rewrite ?fetch_api_token_run;
    try destruct (ssm_get_parameter _ _ _); by intros [= <- <-].
Qed.

Lemma validate_token_run E token w :
  validate_token E token w =
    match get_api_token E w with
    | (Ret expected, w1) =>
        (Ret (if eq_str token expected then (true, None)
              else (false, Some "Invalid ???token")), w1)
    | (Raise e, w1) => (Ret (false, Some "Token validation failed"), w1)
    end.
Proof.
  unfold validate_token, try_except, mbind, M_bind, mret, M_ret.
  destruct (get_api_token E w) as [[expected|e] w1]; [|done].
  by destruct (eq_str token expected).
Qed.

Lemma eq_str_true x s : eq_str x s = true ↔ x = JStr s.
Proof.
  destruct x; simpl; try (split; [discriminate | by intros [=]]).
  rewrite String.eqb_eq. split; [by intros -> | by intros [= ->]].
Qed.

(** ** The queue *)

Lemma send_to_sqs_run E data w :
  send_to_sqs E data w =
    match sqs_send_message E (length (sqs_calls w)) (SQS_QUEUE_URL E)
            (json_dumps E data) with
    | Ret message_id => (Ret (true, message_id), enqueued w (json_dumps E data))
    | Raise e =>
        (if is_ClientError e then Ret (false, exn_str e) else Raise e,
         enqueued w (json_dumps E data))
    end.
Proof.
  unfold send_to_sqs, try_except_ClientError, try_except, mbind, M_bind,
    call_send_message, mret, M_ret, raise, enqueued.
  destruct (sqs_send_message _ _ _ _) as [message_id|e]; [done|].
  by destruct (is_ClientError e).
Qed.

(** ** The view *)

Lemma process_message_invalid E req payload reason w :
  is_json req = true →
  get_json req = Ret payload →
  validate_payload payload = Ret (false, reason) →
  process_message E req w = (Ret (error_response reason 400), w).
Proof.
  intros Hj Hp Hv. unfold process_message. rewrite Hj. simpl.
  rewrite (bind_lift_ret _ _ _ _ Hp), (bind_lift_ret _ _ _ _ Hv). done.
Qed.

Lemma process_message_valid E req payload msg w :
  is_json req = true →
  get_json req = Ret payload →
  validate_payload payload = Ret (true, msg) →
  ∃ token data,
    py_getitem payload "token" = Ret token ∧
    py_getitem payload "data" = Ret data ∧
    process_message E req w = authenticate_and_forward E token data w.
Proof.
  intros Hj Hp Hv.
  destruct (validate_payload_true_inv _ _ Hv)
    as (fields & data & token & Heq & Hd & Ht & ->).
  assert (Htok : py_getitem payload "token" = Ret token)
    by (subst payload; simpl; by rewrite Ht).
  assert (Hdat : py_getitem payload "data" = Ret data)
    by (subst payload; simpl; by rewrite Hd).
  exists token, data. split_and!; try done.
  unfold process_message, authenticate_and_forward. rewrite Hj.
  cbn [negb].
  rewrite (bind_lift_ret _ _ _ _ Hp), (bind_lift_ret _ _ _ _ Hv).
  cbn [fst snd negb].
  rewrite (bind_lift_ret _ _ _ _ Htok).
  apply bind_ext. intros [is_valid error_msg] w1.
  destruct (negb is_valid); [done|].
  by rewrite (bind_lift_ret _ _ _ _ Hdat).
Qed.

Lemma process_message_raises E req payload e w :
  is_json req = true →
  get_json req = Ret payload →
  validate_payload payload = Raise e →
  process_message E req w = (Raise e, w).
Proof.
  intros Hj Hp Hv. unfold process_message. rewrite Hj. simpl.
  rewrite (bind_lift_ret _ _ _ _ Hp). by apply bind_lift_raise.
Qed.

(** A token that is not the secret, or a secret that cannot be read, ends
    the request with 401 before anything is sent to the queue. *)
Lemma authenticate_rejects E token data w :
  (∀ secret w1, get_api_token E w = (Ret secret, w1) → token ≠ JStr secret) →
  ∃ msg w1,
    authenticate_and_forward E token data w
    = (Ret (error_response (Some msg) 401), w1)
    ∧ sqs_calls w1 = sqs_calls w.
Proof.
  intros Hne. unfold authenticate_and_forward, mbind, M_bind.
  rewrite validate_token_run.
  destruct (get_api_token E w) as [[expected|e] w1] eqn:Hget.
  - destruct (eq_str token expected) eqn:Heq.
    + apply eq_str_true in Heq. by destruct (Hne expected w1).
    + eexists _, w1. split; [done|]. by eapply get_api_token_sqs_calls.
  - eexists _, w1. split; [done|]. by eapply get_api_token_sqs_calls.
Qed.

Lemma authenticate_mismatch E token data w expected w1 :
  get_api_token E w = (Ret expected, w1) →
  token ≠ JStr expected →
  authenticate_and_forward E token data w
  = (Ret (error_response (Some "Invalid ???token") 401), w1).
Proof.
  intros Hget Hne. unfold authenticate_and_forward, mbind, M_bind.
  rewrite validate_token_run, Hget.
  destruct (eq_str token expected) eqn:Heq; [|done].
  by apply eq_str_true in Heq.
Qed.

Lemma authenticate_secret_unavailable E token data w e w1 :
  get_api_token E w = (Raise e, w1) →
  authenticate_and_forward E token data w
  = (Ret (error_response (Some "Token validation failed") 401), w1).
Proof.
  intros Hget. unfold authenticate_and_forward, mbind, M_bind.
  by rewrite validate_token_run, Hget.
Qed.

Lemma authenticate_accepts E data w secret w1 message_id :
  get_api_token E w = (Ret secret, w1) →
  sqs_send_message E (length (sqs_calls w1)) (SQS_QUEUE_URL E)
    (json_dumps E data) = Ret message_id →
  authenticate_and_forward E (JStr secret) data w
  = (Ret {| status := 200;
            body := JObj [("status", JStr "success");
                          ("message", JStr "Message sent to queue");
                          ("message_id", JStr message_id)] |},
     enqueued w1 (json_dumps E data)).
Proof.
  intros Hget Hsend. unfold authenticate_and_forward, mbind, M_bind.
  rewrite validate_token_run, Hget.
  assert (eq_str (JStr secret) secret = true) as -> by by apply eq_str_true.
  cbn [fst snd negb]. by rewrite send_to_sqs_run, Hsend.
Qed.

(** ** Counting the fetches of the secret *)

Lemma filling_fetches_S E n :
  filling_fetches E (S n)
  = filling_fetches E n + (if fetch_fills_cache E n then 1 else 0).
Proof.
  unfold filling_fetches. rewrite seq_S, List.filter_app, length_app.
  simpl. by destruct (fetch_fills_cache E n).
Qed.

Lemma get_api_token_cache_counts E w r w1 :
  cache_counts E w → get_api_token E w = (r, w1) → cache_counts E w1.
Proof.
  unfold cache_counts. intros Hinv Hget.
  destruct (cache_truthy (api_token_cache w)) eqn:Hc.
  - unfold cache_truthy in Hc.
    destruct (api_token_cache w) as [t|] eqn:Hcache; [|done].
    rewrite (get_api_token_cached E w t Hcache Hc) in Hget.
    injection Hget as <- <-. by rewrite Hcache; simpl; rewrite Hc.
  - rewrite (get_api_token_cold E w Hc), fetch_api_token_run in Hget.
    pose proof (filling_fetches_S E (ssm_calls w)) as HS.
    unfold fetch_fills_cache in HS.
    destruct (ssm_get_parameter E (ssm_calls w) (SSM_PARAMETER_NAME E))
      as [v|e]; injection Hget as <- <-; simpl; rewrite HS, Hinv.
    + by destruct (str_truthy v).
    + by rewrite Hc.
Qed.

Lemma get_api_token_calls_cache_counts E n w :
  cache_counts E w → cache_counts E (snd (get_api_token_calls E n w)).
Proof.
  revert w. induction n as [|n IH]; intros w Hinv; [done|].
  simpl. destruct (get_api_token E w) as [r w1] eqn:Hget.
  specialize (IH w1 (get_api_token_cache_counts _ _ _ _ Hinv Hget)).
  by destruct (get_api_token_calls E n w1).
Qed.

Lemma get_api_token_calls_cached E n w t :
  api_token_cache w = Some t → str_truthy t = true →
  get_api_token_calls E n w = (replicate n (Ret t), w).
Proof.
  intros Hc Ht. induction n as [|n IH]; [done|].
  simpl. by rewrite (get_api_token_cached E w t Hc Ht), IH.
Qed.

(** ** The claims about the ingress service *)

(** C1, as the code has it. The payload is validated before the token is
    looked at: a request whose payload passes validation and whose token is
    not the secret (or whose secret cannot be read) is answered 401 and
    nothing is sent to the queue, while a request whose payload fails
    validation is answered 400 with the validator's reason, whatever its
    token, and without the secret being read. *)
Theorem wrong_token_is_401_once_payload_is_valid :
  ∀ (E : env) (req : request) (payload : json) (w : world),
    is_json req = true →
    get_json req = Ret payload →
    (validate_payload payload = Ret (true, None) →
     ∀ token,
       py_getitem payload "token" = Ret token →
       (∀ secret w1,
          get_api_token E w = (Ret secret, w1) → token ≠ JStr secret) →
       ∃ r w', process_message E req w = (Ret r, w')
               ∧ status r = 401 ∧ sqs_calls w' = sqs_calls w)
    ∧ (∀ reason,
         validate_payload payload = Ret (false, reason) →
         process_message E req w = (Ret (error_response reason 400), w)).
Proof.
  intros E req payload w Hj Hp. split.
  - intros Hv token Htok Hne.
    destruct (process_message_valid E req payload None w Hj Hp Hv)
      as (token' & data & Htok' & _ & ->).
    assert (token' = token) as -> by congruence.
    destruct (authenticate_rejects E token data w Hne) as (msg & w1 & -> & Hq).
    by exists (error_response (Some msg) 401), w1.
  - intros reason Hv. by apply process_message_invalid with payload.
Qed.

(** The test suite's payload with the token [wrong-token], the store
    holding [correct-token]. *)
Lemma wrong_token_is_401_once_payload_is_valid_witness :
  ∃ r w',
    process_message (Fixtures.api_env "correct-token")
      (Fixtures.post Fixtures.wrong_token_payload) initial_world = (Ret r, w')
    ∧ status r = 401 ∧ sqs_calls w' = sqs_calls initial_world.
Proof.
  refine (proj1 (wrong_token_is_401_once_payload_is_valid
                   (Fixtures.api_env "correct-token")
                   (Fixtures.post Fixtures.wrong_token_payload)
                   Fixtures.wrong_token_payload initial_world
                   eq_refl eq_refl)
            eq_refl (JStr "wrong-token") eq_refl _).
  intros secret w1 Hget. vm_compute in Hget.
  injection Hget as <- _. discriminate.
Defined.

(** C1, as stated, fails: a request whose token is not the secret and whose
    payload lacks [data] is answered 400, not 401. *)
Lemma wrong_token_without_data_is_400 :
  py_getitem Fixtures.token_only_payload "token" = Ret (JStr "wrong-token")
  ∧ get_api_token (Fixtures.api_env "correct-token") initial_world
    = (Ret "correct-token",
       {| api_token_cache := Some "correct-token";
          ssm_calls := 1; sqs_calls := [] |})
  ∧ JStr "wrong-token" ≠ JStr "correct-token"
  ∧ process_message (Fixtures.api_env "correct-token")
      (Fixtures.post Fixtures.token_only_payload) initial_world
    = (Ret {| status := 400;
              body := JObj [("error", JStr "Missing 'data' field")] |},
       initial_world)
  ∧ 400 ≠ 401.
Proof. split_and!; [reflexivity | reflexivity | discriminate | reflexivity | lia]. Qed.

(** C4, on the code. With the payload of the test suite, the token
    [wrong-token] and the stored secret [correct-token], the answer is 401
    and its error text is the source's literal, which is neither the
    spec's text nor contains the text the test suite looks for. *)
Theorem token_mismatch_error_text :
  process_message (Fixtures.api_env "correct-token")
    (Fixtures.post Fixtures.wrong_token_payload) initial_world
  = (Ret {| status := 401;
            body := JObj [("error", JStr "Invalid ???token")] |},
     {| api_token_cache := Some "correct-token";
        ssm_calls := 1; sqs_calls := [] |})
  ∧ "Invalid ???token" ≠ "invalid token"
  ∧ str_contains "Invalid token" "Invalid ???token" = false.
Proof.
  split_and!; [|discriminate|reflexivity].
  destruct (process_message_valid (Fixtures.api_env "correct-token")
              (Fixtures.post Fixtures.wrong_token_payload)
              Fixtures.wrong_token_payload None initial_world
              eq_refl eq_refl eq_refl)
    as (token & data & Htok & Hdat & ->).
  injection Htok as <-.
  apply authenticate_mismatch with "correct-token";
    [reflexivity | discriminate].
Qed.

(** C5. A request whose payload passes validation and whose token is the
    secret, when the queue accepts the message, makes exactly one
    [send_message] call, whose body is the JSON encoding of
    [payload['data']], and is answered 200 with status, message and the id
    the queue returned. *)
Theorem valid_request_is_enqueued_once :
  ∀ (E : env) (req : request) (payload data : json) (w w1 : world)
    (secret message_id : string),
    is_json req = true →
    get_json req = Ret payload →
    validate_payload payload = Ret (true, None) →
    py_getitem payload "token" = Ret (JStr secret) →
    py_getitem payload "data" = Ret data →
    get_api_token E w = (Ret secret, w1) →
    sqs_send_message E (length (sqs_calls w)) (SQS_QUEUE_URL E)
      (json_dumps E data) = Ret message_id →
    ∃ w',
      process_message E req w
      = (Ret {| status := 200;
                body := JObj [("status", JStr "success");
                              ("message", JStr "Message sent to queue");
                              ("message_id", JStr message_id)] |}, w')
      ∧ sqs_calls w' = (sqs_calls w ++ [json_dumps E data])%list.
Proof.
  intros E req payload data w w1 secret message_id Hj Hp Hv Htok Hdat Hget Hsend.
  destruct (process_message_valid E req payload None w Hj Hp Hv)
    as (token' & data' & Htok' & Hdat' & ->).
  assert (token' = JStr secret) as -> by congruence.
  assert (data' = data) as -> by congruence.
  pose proof (get_api_token_sqs_calls _ _ _ _ Hget) as Hq.
  exists (enqueued w1 (json_dumps E data)). split.
  - apply authenticate_accepts; [done|]. by rewrite Hq.
  - simpl. by rewrite Hq.
Qed.

(** The test suite's payload with its own token as the secret. *)
Lemma valid_request_is_enqueued_once_witness :
  ∃ w',
    process_message (Fixtures.api_env "test-secret-token-12345")
      (Fixtures.post Fixtures.valid_payload) initial_world
    = (Ret {| status := 200;
              body := JObj [("status", JStr "success");
                            ("message", JStr "Message sent to queue");
                            ("message_id", JStr "msg-0")] |}, w')
    ∧ sqs_calls w' = [Fixtures.dumps Fixtures.valid_data].
Proof.
  exact (valid_request_is_enqueued_once
           (Fixtures.api_env "test-secret-token-12345")
           (Fixtures.post Fixtures.valid_payload)
           Fixtures.valid_payload Fixtures.valid_data
           initial_world
           {| api_token_cache := Some "test-secret-token-12345";
              ssm_calls := 1; sqs_calls := [] |}
           "test-secret-token-12345" "msg-0"
           eq_refl eq_refl eq_refl eq_refl eq_refl eq_refl eq_refl).
Defined.

(** C7. When the payload passes validation, no secret is cached and the
    parameter store raises, whatever the exception, the answer is 401 with
    the fixed text "Token validation failed": the exception is not part of
    the response, and nothing is sent to the queue. *)
Theorem secret_fetch_failure_is_generic_401 :
  ∀ (E : env) (req : request) (payload : json) (w : world) (e : exn),
    is_json req = true →
    get_json req = Ret payload →
    validate_payload payload = Ret (true, None) →
    cache_truthy (api_token_cache w) = false →
    ssm_get_parameter E (ssm_calls w) (SSM_PARAMETER_NAME E) = Raise e →
    ∃ w',
      process_message E req w
      = (Ret {| status := 401;
                body := JObj [("error", JStr "Token validation failed")] |},
         w')
      ∧ sqs_calls w' = sqs_calls w.
Proof.
  intros E req payload w e Hj Hp Hv Hc Hssm.
  destruct (process_message_valid E req payload None w Hj Hp Hv)
    as (token & data & _ & _ & ->).
  assert (∃ w1, get_api_token E w = (Raise e, w1)) as [w1 Hget].
  { rewrite (get_api_token_cold E w Hc), fetch_api_token_run, Hssm. eauto. }
  exists w1. split.
  - by apply authenticate_secret_unavailable with e.
  - by eapply get_api_token_sqs_calls.
Qed.

(** The test suite's payload when the parameter store raises. *)
Lemma secret_fetch_failure_is_generic_401_witness :
  ∃ w',
    process_message Fixtures.api_env_ssm_down
      (Fixtures.post Fixtures.valid_payload) initial_world
    = (Ret {| status := 401;
              body := JObj [("error", JStr "Token validation failed")] |},
       w')
    ∧ sqs_calls w' = sqs_calls initial_world.
Proof.
  exact (secret_fetch_failure_is_generic_401 Fixtures.api_env_ssm_down
           (Fixtures.post Fixtures.valid_payload) Fixtures.valid_payload
           initial_world (ClientError "ParameterNotFound")
           eq_refl eq_refl eq_refl eq_refl eq_refl).
Defined.

(** The payload of test_missing_multiple_fields. *)
Lemma validate_payload_reports_missing_in_order_witness :
  ∃ missing : list string,
    validate_payload Fixtures.two_fields_payload
    = Ret (false, Some ("Missing required fields in data: "
                        +:+ str_join ", " missing))
    ∧ missing `sublist_of`
        ["email_subject"; "email_sender"; "email_timestream"; "email_content"]
    ∧ ∀ f, f ∈ missing
           ↔ f ∈ required_fields
             ∧ dict_has f [("email_sender", JStr "sender@example.com");
                           ("email_timestream", JStr "2024-01-01T12:00:00Z")]
               = false.
Proof.
  refine (proj2 (proj2 (validate_payload_reports_missing_in_order
                          [("data",
                            JObj [("email_sender", JStr "sender@example.com");
                                  ("email_timestream",
                                   JStr "2024-01-01T12:00:00Z")]);
                           ("token", JStr "test-secret-token-12345")]))
            [("email_sender", JStr "sender@example.com");
             ("email_timestream", JStr "2024-01-01T12:00:00Z")]
            eq_refl eq_refl _).
  exists "email_subject". split; [apply list_elem_of_here | reflexivity].
Defined.

(** The reason for the payload of test_missing_multiple_fields. *)
Example validate_payload_two_fields :
  validate_payload Fixtures.two_fields_payload
  = Ret (false,
         Some "Missing required fields in data: email_subject, email_content").
Proof. reflexivity. Qed.

(** C9, as the code has it. Only a fetch that returns a secret other than
    the empty string fills the cache: over any number of calls from the
    start of the process at most one fetch does so; once one has, every
    later call returns that secret and changes nothing, so it does not
    fetch; and a fetch that raises leaves the cache as it was, so that the
    next call fetches again. *)
Theorem secret_is_fetched_until_cached :
  ∀ E : env,
    (∀ n,
       (filling_fetches E
          (ssm_calls (snd (get_api_token_calls E n initial_world))) ≤ 1)%nat)
    ∧ (∀ w v,
         cache_truthy (api_token_cache w) = false →
         ssm_get_parameter E (ssm_calls w) (SSM_PARAMETER_NAME E) = Ret v →
         str_truthy v = true →
         ∃ w1,
           get_api_token E w = (Ret v, w1)
           ∧ api_token_cache w1 = Some v
           ∧ ssm_calls w1 = S (ssm_calls w)
           ∧ ∀ n, get_api_token_calls E n w1 = (replicate n (Ret v), w1))
    ∧ (∀ w e,
         cache_truthy (api_token_cache w) = false →
         ssm_get_parameter E (ssm_calls w) (SSM_PARAMETER_NAME E) = Raise e →
         ∃ w1,
           get_api_token E w = (Raise e, w1)
           ∧ api_token_cache w1 = api_token_cache w
           ∧ ssm_calls w1 = S (ssm_calls w)).
Proof.
  intros E. split_and!.
  - intros n.
    pose proof (get_api_token_calls_cache_counts E n initial_world eq_refl)
      as Hinv.
    unfold cache_counts in Hinv. rewrite Hinv.
    destruct (cache_truthy _); lia.
  - intros w v Hc Hssm Hv.
    rewrite (get_api_token_cold E w Hc), fetch_api_token_run, Hssm.
    eexists. split_and!; [reflexivity | reflexivity | reflexivity |].
    intros n. by apply get_api_token_calls_cached with (t := v).
  - intros w e Hc Hssm.
    rewrite (get_api_token_cold E w Hc), fetch_api_token_run, Hssm.
    eexists. by split_and!.
Qed.

(** test_token_caching: the first call fetches, the later ones do not. *)
Lemma secret_is_fetched_until_cached_witness :
  ∃ w1,
    get_api_token (Fixtures.api_env "cached-token") initial_world
    = (Ret "cached-token", w1)
    ∧ api_token_cache w1 = Some "cached-token"
    ∧ ssm_calls w1 = 1
    ∧ ∀ n, get_api_token_calls (Fixtures.api_env "cached-token") n w1
           = (replicate n (Ret "cached-token"), w1).
Proof.
  exact (proj1 (proj2 (secret_is_fetched_until_cached
                         (Fixtures.api_env "cached-token")))
           initial_world "cached-token" eq_refl eq_refl eq_refl).
Defined.

(** C9, as stated, fails: with a parameter store that raises, two calls
    make two fetches. *)
Lemma failed_fetch_is_repeated :
  get_api_token_calls Fixtures.api_env_ssm_down 2 initial_world
  = ([Raise (ClientError "ParameterNotFound");
      Raise (ClientError "ParameterNotFound")],
     {| api_token_cache := None; ssm_calls := 2; sqs_calls := [] |})
  ∧ ¬ (2 ≤ 1)%nat.
Proof. split; [reflexivity | lia]. Qed.

(** The field check raises what [in] raises on [payload['data']]. *)
Lemma validate_payload_data_not_iterable fields data e :
  dict_get "data" fields = Some data →
  dict_has "token" fields = true →
  py_in "email_subject" data = Raise e →
  validate_payload (JObj fields) = Raise e.
Proof.
  intros Hd Ht Hin. rewrite (validate_payload_fields _ _ Hd Ht).
  unfold required_fields. cbn [not_in_filter]. by rewrite Hin.
Qed.

(** C10. There is a JSON payload, a dict that has both [data] and [token]
    and whose [data] is a number, on which [validate_payload] raises
    TypeError instead of returning a verdict, so that the view raises too
    and returns no response, the 400 of a failed validation included. *)
Theorem validate_payload_raises_on_number_data :
  ∃ (fields : list (string * json)) (z : Z),
    dict_get "data" fields = Some (JInt z)
    ∧ dict_has "token" fields = true
    ∧ (∃ msg, validate_payload (JObj fields) = Raise (TypeError msg))
    ∧ ∀ (E : env) (w : world) (req : request),
        is_json req = true →
        get_json req = Ret (JObj fields) →
        ∃ msg, process_message E req w = (Raise (TypeError msg), w).
Proof.
  exists [("data", JInt 5); ("token", JStr "test-secret-token-12345")], 5%Z.
  assert (Hv : validate_payload Fixtures.scalar_data_payload
               = Raise (TypeError "argument of type 'int' is not iterable")).
  { by apply validate_payload_data_not_iterable with (JInt 5). }
  split_and!; [reflexivity | reflexivity | by eexists |].
  intros E w req Hj Hp. eexists.
  by apply process_message_raises with Fixtures.scalar_data_payload.
Qed.

End ApiSpec.

(* ===================================================================== *)
(** * Properties of the consumer *)
(* ===================================================================== *)

Module ConsumerSpec.
Import Python Consumer ConsumerNotions.

(** ** One upload *)

Lemma upload_to_s3_run E message_data message_id w :
  let key := s3_key (utcnow E (length (trace w))) message_id in
  let body := json_dumps_indent2 E message_data in
  upload_to_s3 E message_data message_id w =
    match s3_put_object E (S (length (trace w))) (S3_BUCKET_NAME E) key body
    with
    | Ret _ => (Ret true, stored E w key body true)
    | Raise e => (if is_ClientError e then Ret false else Raise e,
                  stored E w key body false)
    end.
Proof.
  intros key body.
  unfold upload_to_s3, try_except_ClientError, try_except, mbind, M_bind,
    call_utcnow, call_put_object, mret, M_ret, raise, stored.
  cbn [trace s3_objects]. rewrite length_app, Nat.add_1_r. fold key body.
  destruct (s3_put_object E _ _ key body) as [[]|e]; cbn [is_ret].
  - by rewrite <- app_assoc.
  - rewrite <- app_assoc. by destruct (is_ClientError e).
Qed.

(** ** One message *)

Lemma process_message_invalid_json E m w receipt_handle message_id body :
  m !! "ReceiptHandle" = Some receipt_handle →
  m !! "MessageId" = Some message_id →
  m !! "Body" = Some body →
  json_loads E body = None →
  process_message E m w = (Ret false, w).
Proof.
  intros Hr Hi Hb Hj.
  unfold process_message, try_except, mbind, M_bind, lift, msg_getitem.
  by rewrite Hr, Hi, Hb, Hj.
Qed.

Lemma process_message_missing_key E m w :
  m !! "ReceiptHandle" = None ∨ m !! "MessageId" = None ∨ m !! "Body" = None →
  process_message E m w = (Ret false, w).
Proof.
  intros H.
  unfold process_message, try_except, mbind, M_bind, lift, msg_getitem.
  destruct (m !! "ReceiptHandle"); [|done].
  destruct (m !! "MessageId"); [|done].
  destruct (m !! "Body"); [|done].
  by destruct H as [?|[?|?]].
Qed.

(** [process_message] always returns, what it did has one of the four
    shapes, and the bucket changed by the uploads that succeeded. *)
Lemma process_message_handled E m w :
  ∃ b evs w',
    process_message E m w = (Ret b, w')
    ∧ trace w' = trace w ++ evs
    ∧ handled m b evs
    ∧ s3_objects w' = replay (s3_objects w) evs.
Proof.
  destruct (m !! "ReceiptHandle") as [receipt_handle|] eqn:Hr;
    [| exists false, [], w; rewrite app_nil_r;
       split_and!; [apply process_message_missing_key; auto | done
                   | constructor | done]].
  destruct (m !! "MessageId") as [message_id|] eqn:Hi;
    [| exists false, [], w; rewrite app_nil_r;
       split_and!; [apply process_message_missing_key; auto | done
                   | constructor | done]].
  destruct (m !! "Body") as [body|] eqn:Hb;
    [| exists false, [], w; rewrite app_nil_r;
       split_and!; [apply process_message_missing_key; auto | done
                   | constructor | done]].
  destruct (json_loads E body) as [message_data|] eqn:Hj;
    [| exists false, [], w; rewrite app_nil_r;
       split_and!; [by eapply process_message_invalid_json | done
                   | constructor | done]].
  unfold process_message, try_except, mbind, M_bind, lift, msg_getitem.
  rewrite Hr, Hi, Hb, Hj, upload_to_s3_run.
  set (now := utcnow E (length (trace w))).
  set (key := s3_key now message_id).
  set (data := json_dumps_indent2 E message_data).
  destruct (s3_put_object E _ _ key data) as [[]|e].
  - cbn [negb]. unfold call_delete_message, mret, M_ret.
    cbn [trace s3_objects stored].
    destruct (sqs_delete_message E _ _ receipt_handle) as [[]|e];
      cbn [is_ret]; eexists _, _, _;
      (split_and!;
         [reflexivity | cbn [trace]; by rewrite <- app_assoc | | reflexivity]).
    + by apply handled_done.
    + by apply handled_delete_failed.
  - destruct (is_ClientError e); cbn [negb]; eexists _, _, _;
      (split_and!; [reflexivity | reflexivity | | reflexivity]);
      by apply handled_upload_failed.
Qed.

Lemma process_message_not_parsed E m w body :
  m !! "Body" = Some body →
  json_loads E body = None →
  process_message E m w = (Ret false, w).
Proof.
  intros Hb Hj.
  destruct (m !! "ReceiptHandle") as [receipt_handle|] eqn:Hr;
    [| apply process_message_missing_key; auto].
  destruct (m !! "MessageId") as [message_id|] eqn:Hi;
    [| apply process_message_missing_key; auto].
  by eapply process_message_invalid_json.
Qed.

(** C3. [process_message] returns for every message, and in what it adds
    to the trace a [delete_message] call carries the receipt handle of the
    message and comes after a [put_object] call that returned, made for the
    key of this message id, whose object is in the bucket. When the body is
    not valid JSON the result is False and no collaborator is called; when
    the upload fails the result is False and there is no delete. *)
Theorem delete_only_after_successful_upload :
  ∀ (E : env) (m : message) (w : world),
    ∃ (b : bool) (evs : list event) (w' : world),
      process_message E m w = (Ret b, w')
      ∧ trace w' = trace w ++ evs
      ∧ (∀ i receipt_handle ok,
           evs !! i = Some (EvDeleteMessage receipt_handle ok) →
           m !! "ReceiptHandle" = Some receipt_handle
           ∧ ∃ j now message_id body,
               j < i
               ∧ m !! "MessageId" = Some message_id
               ∧ evs !! j
                 = Some (EvPutObject (s3_key now message_id) body true)
               ∧ s3_objects w' !! s3_key now message_id = Some body)
      ∧ (∀ body,
           m !! "Body" = Some body → json_loads E body = None →
           b = false ∧ evs = [])
      ∧ (∀ key body,
           EvPutObject key body false ∈ evs →
           b = false
           ∧ ∀ receipt_handle ok, EvDeleteMessage receipt_handle ok ∉ evs).
Proof.
  intros E m w.
  destruct (process_message_handled E m w)
    as (b & evs & w' & Hrun & Htr & Hh & Hstore).
  exists b, evs, w'. split_and!; [done | done | | |].
  - intros i receipt_handle ok Hi.
    inversion Hh as [| now id body Hid | now id body rh Hid Hrh
                     | now id body rh Hid Hrh]; subst;
      destruct i as [|[|[|i]]]; try discriminate Hi;
      injection Hi as <- <-; (split; [done|]);
      exists 1, now, id, body; rewrite Hstore;
      (split_and!; [lia | done | done | apply lookup_insert_eq]).
  - intros body Hb Hj.
    rewrite (process_message_not_parsed E m w body Hb Hj) in Hrun.
    injection Hrun as <- <-. split; [done|].
    apply (app_inv_head (trace w)). by rewrite app_nil_r.
  - intros key body Hin.
    inversion Hh; subst;
      repeat (apply elem_of_cons in Hin as [Hin|Hin]; try discriminate Hin);
      try (by apply elem_of_nil in Hin).
    split; [done|]. intros receipt_handle ok Hdel.
    repeat (apply elem_of_cons in Hdel as [Hdel|Hdel];
            try discriminate Hdel).
    by apply elem_of_nil in Hdel.
Qed.

(** The message of the test suite when the bucket does not exist. *)
Lemma delete_only_after_successful_upload_witness :
  ∃ (b : bool) (evs : list event) (w' : world),
    process_message (Fixtures.consumer_env [] false) Fixtures.sqs_message
      Fixtures.empty_world = (Ret b, w')
    ∧ trace w' = trace Fixtures.empty_world ++ evs
    ∧ (∀ i receipt_handle ok,
         evs !! i = Some (EvDeleteMessage receipt_handle ok) →
         Fixtures.sqs_message !! "ReceiptHandle" = Some receipt_handle
         ∧ ∃ j now message_id body,
             j < i
             ∧ Fixtures.sqs_message !! "MessageId" = Some message_id
             ∧ evs !! j
               = Some (EvPutObject (s3_key now message_id) body true)
             ∧ s3_objects w' !! s3_key now message_id = Some body)
    ∧ (∀ body,
         Fixtures.sqs_message !! "Body" = Some body →
         json_loads (Fixtures.consumer_env [] false) body = None →
         b = false ∧ evs = [])
    ∧ (∀ key body,
         EvPutObject key body false ∈ evs →
         b = false
         ∧ ∀ receipt_handle ok, EvDeleteMessage receipt_handle ok ∉ evs).
Proof.
  exact (delete_only_after_successful_upload
           (Fixtures.consumer_env [] false) Fixtures.sqs_message
           Fixtures.empty_world).
Defined.

(** A message whose upload fails: no delete, and the bucket stays empty. *)
Example process_message_upload_failed :
  process_message (Fixtures.consumer_env [] false) Fixtures.sqs_message
    Fixtures.empty_world
  = (Ret false,
     {| s3_objects := ∅;
        trace := [EvUtcnow (Fixtures.new_year_2024 0);
                  EvPutObject "messages/2024/01/01/test-message-id-12345.json"
                    (Fixtures.dumps_indent 0 Fixtures.sample_message_data)
                    false] |}).
Proof. vm_compute. reflexivity. Qed.

(** ** One poll cycle *)

Lemma batch_run_length E ms w bs w' :
  batch_run E ms w bs w' → length bs = length ms.
Proof. induction 1; simpl; congruence. Qed.

Lemma process_each_run E ms successful w :
  ∃ bs w',
    batch_run E ms w bs w'
    ∧ process_each E ms successful w = (Ret (successful + successes bs), w').
Proof.
  revert successful w. induction ms as [|m ms IH]; intros successful w.
  - exists [], w. split; [constructor|].
    unfold successes. simpl. by rewrite Nat.add_0_r.
  - destruct (process_message_handled E m w) as (b & evs & w1 & Hrun & _).
    destruct (IH (if b then S successful else successful) w1)
      as (bs & w2 & Hbatch & Heach).
    exists (b :: bs), w2. split; [by econstructor|].
    cbn [process_each]. unfold mbind, M_bind. rewrite Hrun, Heach.
    do 2 f_equal. unfold successes. destruct b; simpl; lia.
Qed.

(** C8. When [receive_message] returns a batch, the cycle calls
    [process_message] on every message of it, in order, each in the world
    the previous one left; every call returns, so that a message that fails
    stops nothing; and [poll_sqs] returns how many of the calls returned
    True. *)
Theorem poll_sqs_counts_successes_over_whole_batch :
  ∀ (E : env) (w : world) (messages : list message),
    sqs_receive_message E (length (trace w)) (SQS_QUEUE_URL E) (MAX_MESSAGES E)
    = Ret (Some messages) →
    ∃ (results : list bool) (w' : world),
      batch_run E messages (received w) results w'
      ∧ length results = length messages
      ∧ poll_sqs E w = (Ret (successes results), w')
      ∧ successes results ≤ length messages.
Proof.
  intros E w messages Hrecv.
  destruct (process_each_run E messages 0 (received w))
    as (results & w' & Hbatch & Heach).
  pose proof (batch_run_length _ _ _ _ _ Hbatch) as Hlen.
  exists results, w'. split_and!; [done | done | |].
  - unfold poll_sqs, try_except_ClientError, try_except, mbind, M_bind,
      call_receive_message.
    rewrite Hrecv. cbn [is_ret default id]. fold (received w).
    destruct messages as [|m ms].
    + inversion Hbatch; subst. reflexivity.
    + by rewrite Heach.
  - rewrite <- Hlen. unfold successes. apply filter_length_le.
Qed.

(** A response without [Messages], or with an empty list, ends the cycle
    with 0 and nothing but the receive call made. *)
Lemma poll_sqs_no_messages E w response :
  sqs_receive_message E (length (trace w)) (SQS_QUEUE_URL E) (MAX_MESSAGES E)
  = Ret response →
  default [] response = [] →
  poll_sqs E w = (Ret 0, received w).
Proof.
  intros Hrecv Hnone.
  unfold poll_sqs, try_except_ClientError, try_except, mbind, M_bind,
    call_receive_message.
  rewrite Hrecv. cbn [is_ret]. fold (received w). by rewrite Hnone.
Qed.

(** A [ClientError] of the receive call ends the cycle with 0; any other
    exception leaves [poll_sqs]. *)
Lemma poll_sqs_receive_failed E w e :
  sqs_receive_message E (length (trace w)) (SQS_QUEUE_URL E) (MAX_MESSAGES E)
  = Raise e →
  ∃ w', poll_sqs E w = (if is_ClientError e then Ret 0 else Raise e, w')
        ∧ trace w' = trace w ++ [EvReceiveMessage false].
Proof.
  intros Hrecv.
  unfold poll_sqs, try_except_ClientError, try_except, mbind, M_bind,
    call_receive_message.
  rewrite Hrecv. cbn [is_ret]. eexists.
  by destruct (is_ClientError e).
Qed.

(** A batch of the message that does not parse and the one that does. *)
Lemma poll_sqs_counts_successes_over_whole_batch_witness :
  ∃ (results : list bool) (w' : world),
    batch_run
      (Fixtures.consumer_env [Fixtures.invalid_message; Fixtures.sqs_message]
         true)
      [Fixtures.invalid_message; Fixtures.sqs_message]
      (received Fixtures.empty_world) results w'
    ∧ length results = 2
    ∧ poll_sqs
        (Fixtures.consumer_env
           [Fixtures.invalid_message; Fixtures.sqs_message] true)
        Fixtures.empty_world
      = (Ret (successes results), w')
    ∧ successes results ≤ 2.
Proof.
  exact (poll_sqs_counts_successes_over_whole_batch
           (Fixtures.consumer_env
              [Fixtures.invalid_message; Fixtures.sqs_message] true)
           Fixtures.empty_world
           [Fixtures.invalid_message; Fixtures.sqs_message] eq_refl).
Defined.

(** A batch of a message that does not parse followed by one that does: one
    success, one upload and one delete, both of the second message. *)
Example poll_sqs_partial_success :
  poll_sqs
    (Fixtures.consumer_env [Fixtures.invalid_message; Fixtures.sqs_message]
       true)
    Fixtures.empty_world
  = (Ret 1,
     {| s3_objects :=
          {[ "messages/2024/01/01/test-message-id-12345.json"
             := Fixtures.dumps_indent 0 Fixtures.sample_message_data ]};
        trace := [EvReceiveMessage true;
                  EvUtcnow (Fixtures.new_year_2024 1);
                  EvPutObject "messages/2024/01/01/test-message-id-12345.json"
                    (Fixtures.dumps_indent 0 Fixtures.sample_message_data)
                    true;
                  EvDeleteMessage "test-receipt-handle" true] |}).
Proof. vm_compute. reflexivity. Qed.

(** ** The object key *)

Lemma format_02d_below_100 :
  forallb (λ n, String.eqb (format_02d n) (two_digits n)) (seq 0 100) = true.
Proof. vm_compute. reflexivity. Qed.

Lemma format_02d_two_digits n : n < 100 → format_02d n = two_digits n.
Proof.
  intros Hn. apply String.eqb_eq.
  pose proof format_02d_below_100 as Hall.
  rewrite forallb_forall in Hall. apply Hall, in_seq. lia.
Qed.

Lemma s3_key_spec_key now message_id :
  valid_date now →
  s3_key now message_id
  = spec_key (year now) (month now) (day now) message_id.
Proof.
  intros (_ & Hm & Hd). unfold s3_key, spec_key, format_d.
  rewrite !format_02d_two_digits by lia. reflexivity.
Qed.

Lemma s3_key_same_day a b message_id :
  same_day a b → s3_key a message_id = s3_key b message_id.
Proof. intros (Hy & Hm & Hd). unfold s3_key. by rewrite Hy, Hm, Hd. Qed.

Lemma upload_to_s3_true E data message_id w w' :
  upload_to_s3 E data message_id w = (Ret true, w') →
  w' = stored E w (s3_key (utcnow E (length (trace w))) message_id)
         (json_dumps_indent2 E data) true.
Proof.
  rewrite upload_to_s3_run. cbv zeta.
  destruct (s3_put_object E _ _ _ _) as [[]|e]; [by intros [= <-]|].
  by destruct (is_ClientError e).
Qed.

(** C6. Whatever the message id and the moment, the key [upload_to_s3]
    hands to [put_object] is
    messages/{year}/{month:02}/{day:02}/{message_id}.json for the date the
    clock shows at that moment; and two uploads of the same message id that
    both return, made on the same day, write the same key: the second
    leaves under it the body it wrote and, where the object was already
    there, adds no key to the bucket. *)
Theorem upload_key_is_utc_date_and_message_id :
  ∀ (E : env) (message_id : string),
    (∀ (data : json) (w : world) (now : datetime),
       utcnow E (length (trace w)) = now →
       valid_date now →
       ∃ (r : outcome bool) (ok : bool) (w' : world),
         upload_to_s3 E data message_id w = (r, w')
         ∧ trace w'
           = trace w
             ++ [EvUtcnow now;
                 EvPutObject
                   (spec_key (year now) (month now) (day now) message_id)
                   (json_dumps_indent2 E data) ok])
    ∧ (∀ (data1 data2 : json) (wa wa' wb wb' : world),
         upload_to_s3 E data1 message_id wa = (Ret true, wa') →
         upload_to_s3 E data2 message_id wb = (Ret true, wb') →
         same_day (utcnow E (length (trace wa)))
                  (utcnow E (length (trace wb))) →
         ∃ key : string,
           s3_objects wa' = <[key := json_dumps_indent2 E data1]> (s3_objects wa)
           ∧ s3_objects wb'
             = <[key := json_dumps_indent2 E data2]> (s3_objects wb)
           ∧ s3_objects wb' !! key = Some (json_dumps_indent2 E data2)
           ∧ (is_Some (s3_objects wb !! key) →
              dom (s3_objects wb') = dom (s3_objects wb)
              ∧ size (s3_objects wb') = size (s3_objects wb))).
Proof.
  intros E message_id. split.
  - intros data w now Hnow Hvalid.
    rewrite upload_to_s3_run. cbv zeta. rewrite Hnow.
    rewrite (s3_key_spec_key now message_id Hvalid).
    destruct (s3_put_object E _ _ _ _) as [[]|e];
      eexists _, _, _; (split; [reflexivity|]);
      unfold stored; cbn [trace]; by rewrite Hnow.
  - intros data1 data2 wa wa' wb wb' Ha Hb Hday.
    apply upload_to_s3_true in Ha, Hb. subst wa' wb'.
    rewrite <- (s3_key_same_day _ _ message_id Hday).
    exists (s3_key (utcnow E (length (trace wa))) message_id).
    cbn [stored s3_objects].
    split_and!; [done | done | apply lookup_insert_eq |].
    intros [old Hold]. split.
    + by apply dom_insert_lookup_L.
    + apply map_size_insert_Some. by exists old.
Qed.

(** test_upload_creates_hierarchical_path on 2024-01-01. *)
Lemma upload_key_is_utc_date_and_message_id_witness :
  ∃ (r : outcome bool) (ok : bool) (w' : world),
    upload_to_s3 (Fixtures.consumer_env [] true) Fixtures.sample_message_data
      "test-message-123" Fixtures.empty_world = (r, w')
    ∧ trace w'
      = trace Fixtures.empty_world
        ++ [EvUtcnow (Fixtures.new_year_2024 0);
            EvPutObject (spec_key 2024 1 1 "test-message-123")
              (Fixtures.dumps_indent 0 Fixtures.sample_message_data) ok].
Proof.
  refine (proj1 (upload_key_is_utc_date_and_message_id
                   (Fixtures.consumer_env [] true) "test-message-123")
            Fixtures.sample_message_data Fixtures.empty_world
            (Fixtures.new_year_2024 0) eq_refl _).
  unfold valid_date. simpl. lia.
Defined.

(** The key of the fixture. *)
Example spec_key_new_year : spec_key 2024 1 1 "test-message-123"
                            = "messages/2024/01/01/test-message-123.json".
Proof. reflexivity. Qed.

(** The same message delivered twice on 2024-01-01, at two different hours:
    two uploads, one object. *)
Example redelivery_overwrites :
  let E := Fixtures.consumer_env [] true in
  let w2 := snd (process_message E Fixtures.sqs_message
                   (snd (process_message E Fixtures.sqs_message
                           Fixtures.empty_world))) in
  List.filter (λ ev, match ev with EvUtcnow _ => true | _ => false end)
    (trace w2)
  = [EvUtcnow (Fixtures.new_year_2024 0); EvUtcnow (Fixtures.new_year_2024 3)]
  ∧ s3_objects w2
    = {[ "messages/2024/01/01/test-message-id-12345.json"
         := Fixtures.dumps_indent 0 Fixtures.sample_message_data ]}
  ∧ size (s3_objects w2) = 1.
Proof. vm_compute. split_and!; reflexivity. Qed.

End ConsumerSpec.

(* ===================================================================== *)
(** * Further properties of the ingress service *)
(* ===================================================================== *)

Module ApiExtra.
Import Python Api ApiNotions ApiSpec.

(** ** The validator *)

Lemma filter_absent_nil d fs :
  List.filter (absent d) fs = [] ↔ ∀ f, f ∈ fs → dict_has f d = true.
Proof.
  induction fs as [|g fs IH]; simpl.
  - split; [|done]. intros _ f Hf. by apply elem_of_nil in Hf.
  - unfold absent at 1. destruct (dict_has g d) eqn:Hg; simpl.
    + rewrite IH. split.
      * intros H f Hf. apply elem_of_cons in Hf as [->|Hf]; auto.
      * intros H f Hf. apply H. by right.
    + split; [done|]. intros H. specialize (H g (list_elem_of_here _ _)).
      congruence.
Qed.

(** X1. On a dict that has [token] and a dict under [data], the validator
    never raises, and it accepts exactly when [data] has the four required
    keys: the values under them and any other key play no part. *)
Theorem validate_payload_accepts_iff_four_keys :
  ∀ (fields d : list (string * json)),
    dict_get "data" fields = Some (JObj d) →
    dict_has "token" fields = true →
    (∃ v, validate_payload (JObj fields) = Ret v)
    ∧ (validate_payload (JObj fields) = Ret (true, None)
       ↔ ∀ f, f ∈ required_fields → dict_has f d = true).
Proof.
  intros fields d Hd Ht.
  rewrite (validate_payload_fields _ _ Hd Ht), not_in_filter_dict.
  pose proof (filter_absent_nil d required_fields) as Hnil.
  destruct (List.filter (absent d) required_fields) as [|x l].
  - split; [by eexists|]. split; [intros _; by apply Hnil | done].
  - split; [by eexists|]. split; [done|].
    intros Hall. by apply Hnil in Hall.
Qed.

(** The payload of the test suite, and one whose values are not strings. *)
Lemma validate_payload_accepts_iff_four_keys_witness :
  (∃ v,
     validate_payload
       (JObj [("data", JObj [("email_subject", JNull);
                             ("email_sender", JInt 7);
                             ("email_timestream", JArr []);
                             ("email_content", JBool false);
                             ("more", JStr "x")]);
              ("token", JInt 0)]) = Ret v)
  ∧ (validate_payload
       (JObj [("data", JObj [("email_subject", JNull);
                             ("email_sender", JInt 7);
                             ("email_timestream", JArr []);
                             ("email_content", JBool false);
                             ("more", JStr "x")]);
              ("token", JInt 0)]) = Ret (true, None)
     ↔ ∀ f, f ∈ required_fields →
            dict_has f [("email_subject", JNull);
                        ("email_sender", JInt 7);
                        ("email_timestream", JArr []);
                        ("email_content", JBool false);
                        ("more", JStr "x")] = true).
Proof.
  exact (validate_payload_accepts_iff_four_keys
           [("data", JObj [("email_subject", JNull);
                           ("email_sender", JInt 7);
                           ("email_timestream", JArr []);
                           ("email_content", JBool false);
                           ("more", JStr "x")]);
            ("token", JInt 0)]
           [("email_subject", JNull); ("email_sender", JInt 7);
            ("email_timestream", JArr []); ("email_content", JBool false);
            ("more", JStr "x")]
           eq_refl eq_refl).
Defined.

(** X2. A body that is not a JSON object never passes: the validator
    reports [data] or [token] missing, or raises TypeError (from [in] on
    null, a bool or a number, and from [payload['data']] on a list or a
    str that holds both names). *)
Theorem validate_payload_rejects_non_object :
  ∀ payload : json,
    (∀ fields, payload ≠ JObj fields) →
    validate_payload payload = Ret (false, Some "Missing 'data' field")
    ∨ validate_payload payload = Ret (false, Some "Missing 'token' field")
    ∨ ∃ msg, validate_payload payload = Raise (TypeError msg).
Proof.
  intros payload Hnot.
  destruct payload as [| b | z | r | s | l | fields];
    try (right; right; by eexists).
  - unfold validate_payload. simpl.
    destruct (str_contains "data" s); [|by left]. simpl.
    destruct (str_contains "token" s); [|by right; left].
    right; right. by eexists.
  - unfold validate_payload. simpl.
    destruct (existsb _ l); [|by left]. simpl.
    destruct (existsb _ l); [|by right; left].
    right; right. by eexists.
  - by destruct (Hnot fields).
Qed.

(** A list that holds both names. *)
Lemma validate_payload_rejects_non_object_witness :
  validate_payload Fixtures.list_payload
  = Ret (false, Some "Missing 'data' field")
  ∨ validate_payload Fixtures.list_payload
    = Ret (false, Some "Missing 'token' field")
  ∨ ∃ msg, validate_payload Fixtures.list_payload = Raise (TypeError msg).
Proof.
  apply (validate_payload_rejects_non_object Fixtures.list_payload).
  intros fields. discriminate.
Defined.

Lemma existsb_eq_str l f :
  existsb (λ y, eq_str y f) l = true ↔ JStr f ∈ l.
Proof.
  rewrite existsb_exists. split.
  - intros (y & Hin & Heq). apply eq_str_true in Heq as ->.
    by apply list_elem_of_In.
  - intros Hin. exists (JStr f). split; [by apply list_elem_of_In|].
    by apply eq_str_true.
Qed.

Lemma not_in_filter_all_present fs data :
  (∀ f, f ∈ fs → py_in f data = Ret true) →
  not_in_filter fs data = Ret [].
Proof.
  induction fs as [|g fs IH]; intros Hall; [done|].
  cbn [not_in_filter]. rewrite (Hall g (list_elem_of_here _ _)). simpl.
  rewrite IH; [done|]. intros f Hf. apply Hall. by right.
Qed.

(** X3. [data] need not be a dict: with [token] present, a list that has
    the four required names among its elements, or a str that has them as
    substrings, passes validation. *)
Theorem validate_payload_accepts_list_and_str_data :
  ∀ fields : list (string * json),
    dict_has "token" fields = true →
    (∀ l : list json,
       dict_get "data" fields = Some (JArr l) →
       (∀ f, f ∈ required_fields → JStr f ∈ l) →
       validate_payload (JObj fields) = Ret (true, None))
    ∧ (∀ s : string,
         dict_get "data" fields = Some (JStr s) →
         (∀ f, f ∈ required_fields → str_contains f s = true) →
         validate_payload (JObj fields) = Ret (true, None)).
Proof.
  intros fields Ht. split.
  - intros l Hd Hall. rewrite (validate_payload_fields _ _ Hd Ht).
    rewrite not_in_filter_all_present; [done|].
    intros f Hf. simpl. f_equal. by apply existsb_eq_str, Hall.
  - intros s Hd Hall. rewrite (validate_payload_fields _ _ Hd Ht).
    rewrite not_in_filter_all_present; [done|].
    intros f Hf. simpl. f_equal. by apply Hall.
Qed.

(** A str that names the four fields. *)
Lemma validate_payload_accepts_list_and_str_data_witness :
  validate_payload Fixtures.str_data_payload = Ret (true, None).
Proof.
  refine (proj2 (validate_payload_accepts_list_and_str_data
                   [("data",
                     JStr "email_subject,email_sender,email_timestream,email_content");
                    ("token", JStr "test-secret-token-12345")] eq_refl)
            "email_subject,email_sender,email_timestream,email_content"
            eq_refl _).
  intros f Hf. unfold required_fields in Hf.
  repeat (apply elem_of_cons in Hf as [->|Hf]; [reflexivity|]).
  by apply elem_of_nil in Hf.
Defined.

(** ** The token *)

(** What one call of [get_api_token] can do to the world. *)
Lemma get_api_token_effect E w r w1 :
  get_api_token E w = (r, w1) →
  sqs_calls w1 = sqs_calls w
  ∧ ssm_calls w ≤ ssm_calls w1 ≤ S (ssm_calls w)
  ∧ (cache_truthy (api_token_cache w) = true → w1 = w).
Proof.
  intros Hget. split; [by eapply get_api_token_sqs_calls|].
  destruct (cache_truthy (api_token_cache w)) eqn:Hc.
  - unfold cache_truthy in Hc.
    destruct (api_token_cache w) as [t|] eqn:Hcache; [|done].
    rewrite (get_api_token_cached E w t Hcache Hc) in Hget.
    injection Hget as <- <-. split; [lia | done].
  - rewrite (get_api_token_cold E w Hc), fetch_api_token_run in Hget.
    destruct (ssm_get_parameter _ _ _); injection Hget as <- <-;
      simpl; split; (lia || done).
Qed.

(** X4. [validate_token] never raises, whatever [get_api_token] does; it
    says True exactly when the secret was read and the token is a str
    equal to it, and then without a message; and it sends nothing to the
    queue. *)
Theorem validate_token_returns_and_decides :
  ∀ (E : env) (token : json) (w : world),
    ∃ (is_valid : bool) (error_msg : option string) (w' : world),
      validate_token E token w = (Ret (is_valid, error_msg), w')
      ∧ (is_valid = true
         ↔ ∃ secret, get_api_token E w = (Ret secret, w')
                     ∧ token = JStr secret)
      ∧ (is_valid = true → error_msg = None)
      ∧ sqs_calls w' = sqs_calls w.
Proof.
  intros E token w. rewrite validate_token_run.
  destruct (get_api_token E w) as [[expected|e] w1] eqn:Hget.
  - pose proof (get_api_token_sqs_calls _ _ _ _ Hget) as Hq.
    destruct (eq_str token expected) eqn:Heq.
    + apply eq_str_true in Heq. exists true, None, w1.
      split_and!; try done. split; [|done]. intros _. by exists expected.
    + exists false, (Some "Invalid ???token"), w1.
      split_and!; try done. split; [done|].
      intros (secret & [= <-] & Htok). apply eq_str_true in Htok. congruence.
  - exists false, (Some "Token validation failed"), w1.
    split_and!; try done; [|by eapply get_api_token_sqs_calls].
    split; [done|]. by intros (secret & [=] & _).
Qed.

(** ** The view, case by case *)

Lemma authenticate_and_forward_cases E token data w :
  (∃ r1 w1 msg,
     get_api_token E w = (r1, w1)
     ∧ authenticate_and_forward E token data w
       = (Ret (error_response (Some msg) 401), w1))
  ∨ (∃ secret w1,
       get_api_token E w = (Ret secret, w1)
       ∧ token = JStr secret
       ∧ authenticate_and_forward E token data w
         = (forwarded E data w1, enqueued w1 (json_dumps E data))).
Proof.
  unfold authenticate_and_forward, mbind, M_bind.
  rewrite validate_token_run.
  destruct (get_api_token E w) as [[expected|e] w1] eqn:Hget.
  - destruct (eq_str token expected) eqn:Heq.
    + apply eq_str_true in Heq. right. exists expected, w1.
      split_and!; try done. cbn [negb]. rewrite send_to_sqs_run.
      unfold forwarded.
      destruct (sqs_send_message _ _ _ _) as [message_id|e]; [done|].
      by destruct (is_ClientError e).
    + left. by eexists _, w1, _.
  - left. by eexists _, w1, _.
Qed.

(** Either the view stops before the token, leaving the world as it was,
    or the payload has passed validation and the rest is
    [authenticate_and_forward]. *)
Lemma process_message_cases E req w :
  (∃ r, process_message E req w = (r, w)
        ∧ ∀ resp, r = Ret resp → status resp = 400)
  ∨ (∃ payload token data,
       get_json req = Ret payload
       ∧ validate_payload payload = Ret (true, None)
       ∧ py_getitem payload "token" = Ret token
       ∧ py_getitem payload "data" = Ret data
       ∧ process_message E req w = authenticate_and_forward E token data w).
Proof.
  destruct (is_json req) eqn:Hj.
  2:{ left. eexists. unfold process_message. rewrite Hj. simpl.
      split; [reflexivity|]. by intros resp [= <-]. }
  destruct (get_json req) as [payload|e] eqn:Hp.
  2:{ left. exists (Raise e). unfold process_message. rewrite Hj. simpl.
      split; [by apply bind_lift_raise | done]. }
  destruct (validate_payload payload) as [[[] msg]|e] eqn:Hv.
  - pose proof (validate_payload_true_inv _ _ Hv)
      as (_ & _ & _ & _ & _ & _ & ->).
    destruct (process_message_valid E req payload None w Hj Hp Hv)
      as (token & data & Htok & Hdat & Hrun).
    right. by exists payload, token, data.
  - left. eexists. split; [by apply process_message_invalid with payload|].
    by intros resp [= <-].
  - left. exists (Raise e).
    split; [by apply process_message_raises with payload | done].
Qed.

(** X5. Nothing reaches the queue without authentication. Whatever the
    request, either the view makes no [send_message] call and does not
    answer 200, or the payload passed validation, the secret was read, the
    token is a str equal to it, and exactly one [send_message] call was
    made, with the JSON encoding of [payload['data']]. *)
Theorem no_enqueue_without_valid_token :
  ∀ (E : env) (req : request) (w : world),
    ∃ (r : outcome response) (w' : world),
      process_message E req w = (r, w')
      ∧ ((sqs_calls w' = sqs_calls w
          ∧ ∀ resp, r = Ret resp → status resp ≠ 200)
         ∨ ∃ payload data secret w1,
             get_json req = Ret payload
             ∧ validate_payload payload = Ret (true, None)
             ∧ py_getitem payload "token" = Ret (JStr secret)
             ∧ py_getitem payload "data" = Ret data
             ∧ get_api_token E w = (Ret secret, w1)
             ∧ sqs_calls w' = sqs_calls w ++ [json_dumps E data]).
Proof.
  intros E req w.
  destruct (process_message_cases E req w)
    as [(r & Hrun & Hst) | (payload & token & data & Hp & Hv & Htok & Hdat & Hrun)].
  - exists r, w. split; [done|]. left. split; [done|].
    intros resp Hr. rewrite (Hst resp Hr). lia.
  - destruct (authenticate_and_forward_cases E token data w)
      as [(r1 & w1 & msg & Hget & Hauth) | (secret & w1 & Hget & -> & Hauth)].
    + eexists _, w1. split; [by rewrite Hrun|]. left.
      split; [by eapply get_api_token_sqs_calls|].
      intros resp [= <-]. simpl. lia.
    + eexists _, _. split; [by rewrite Hrun|]. right.
      exists payload, data, secret, w1. split_and!; try done.
      simpl. by rewrite (get_api_token_sqs_calls _ _ _ _ Hget).
Qed.

(** X6. A request that passes validation and carries the secret, when
    [send_message] raises: a [ClientError] is answered 500 with its text
    after "Failed to send message: ", any other exception leaves the view;
    in both cases the one call was made and what was read of the secret
    stays. *)
Theorem queue_failure_is_500_with_the_error :
  ∀ (E : env) (req : request) (payload data : json) (w w1 : world)
    (secret : string) (e : exn),
    is_json req = true →
    get_json req = Ret payload →
    validate_payload payload = Ret (true, None) →
    py_getitem payload "token" = Ret (JStr secret) →
    py_getitem payload "data" = Ret data →
    get_api_token E w = (Ret secret, w1) →
    sqs_send_message E (length (sqs_calls w)) (SQS_QUEUE_URL E)
      (json_dumps E data) = Raise e →
    process_message E req w
    = (if is_ClientError e then
         Ret {| status := 500;
                body := JObj [("error",
                               JStr ("Failed to send message: "
                                     +:+ exn_str e))] |}
       else Raise e,
       {| api_token_cache := api_token_cache w1;
          ssm_calls := ssm_calls w1;
          sqs_calls := sqs_calls w ++ [json_dumps E data] |}).
Proof.
  intros E req payload data w w1 secret e Hj Hp Hv Htok Hdat Hget Hsend.
  destruct (process_message_valid E req payload None w Hj Hp Hv)
    as (token' & data' & Htok' & Hdat' & ->).
  assert (token' = JStr secret) as -> by congruence.
  assert (data' = data) as -> by congruence.
  pose proof (get_api_token_sqs_calls _ _ _ _ Hget) as Hq.
  unfold authenticate_and_forward, mbind, M_bind.
  rewrite validate_token_run, Hget.
  assert (eq_str (JStr secret) secret = true) as -> by by apply eq_str_true.
  cbn [negb]. rewrite send_to_sqs_run, Hq, Hsend. unfold enqueued.
  rewrite Hq. by destruct (is_ClientError e).
Qed.

(** The test suite's payload with its token as the secret and a queue that
    does not exist. *)
Lemma queue_failure_is_500_with_the_error_witness :
  process_message
    (Fixtures.api_env_sqs_down "test-secret-token-12345")
    (Fixtures.post Fixtures.valid_payload) initial_world
  = (Ret {| status := 500;
            body := JObj [("error",
                           JStr ("Failed to send message: "
                                 +:+ "AWS.SimpleQueueService.NonExistentQueue"))] |},
     {| api_token_cache := Some "test-secret-token-12345";
        ssm_calls := 1;
        sqs_calls := [Fixtures.dumps Fixtures.valid_data] |}).
Proof.
  exact (queue_failure_is_500_with_the_error
           (Fixtures.api_env_sqs_down "test-secret-token-12345")
           (Fixtures.post Fixtures.valid_payload)
           Fixtures.valid_payload Fixtures.valid_data
           initial_world
           {| api_token_cache := Some "test-secret-token-12345";
              ssm_calls := 1; sqs_calls := [] |}
           "test-secret-token-12345"
           (ClientError "AWS.SimpleQueueService.NonExistentQueue")
           eq_refl eq_refl eq_refl eq_refl eq_refl eq_refl eq_refl).
Defined.

(** ** Many requests *)

Lemma process_message_effect E req w r w' :
  process_message E req w = (r, w') →
  ssm_calls w ≤ ssm_calls w' ≤ S (ssm_calls w)
  ∧ length (sqs_calls w') ≤ S (length (sqs_calls w))
  ∧ (cache_truthy (api_token_cache w) = true →
     api_token_cache w' = api_token_cache w ∧ ssm_calls w' = ssm_calls w).
Proof.
  intros Hrun.
  destruct (process_message_cases E req w)
    as [(r0 & Hrun0 & _) | (payload & token & data & _ & _ & _ & _ & Hrun0)].
  - rewrite Hrun0 in Hrun. injection Hrun as <- <-.
    split_and!; [lia | lia | lia | done].
  - rewrite Hrun0 in Hrun.
    destruct (authenticate_and_forward_cases E token data w)
      as [(r1 & w1 & msg & Hget & Hauth) | (secret & w1 & Hget & _ & Hauth)];
      rewrite Hauth in Hrun; injection Hrun as <- <-;
      destruct (get_api_token_effect _ _ _ _ Hget) as (Hq & Hs & Hc);
      simpl; rewrite ?length_app, ?Hq; simpl;
      (split_and!; [lia | lia | lia |]);
      intros Ht; by rewrite (Hc Ht).
Qed.

(** X7. Over any list of requests served by one process, there is at most
    one [get_parameter] call and at most one [send_message] call per
    request; and once a secret that is not empty is cached, no request
    fetches again or replaces it. *)
Theorem requests_fetch_and_enqueue_at_most_once_each :
  ∀ (E : env) (reqs : list request) (w : world),
    ssm_calls (snd (serve_all E reqs w)) ≤ ssm_calls w + length reqs
    ∧ length (sqs_calls (snd (serve_all E reqs w)))
      ≤ length (sqs_calls w) + length reqs
    ∧ (cache_truthy (api_token_cache w) = true →
       api_token_cache (snd (serve_all E reqs w)) = api_token_cache w
       ∧ ssm_calls (snd (serve_all E reqs w)) = ssm_calls w).
Proof.
  intros E reqs. induction reqs as [|req reqs IH]; intros w.
  - simpl. split_and!; [lia | lia | done].
  - cbn [serve_all]. destruct (process_message E req w) as [r w1] eqn:Hrun.
    destruct (process_message_effect _ _ _ _ _ Hrun) as (Hs & Hq & Hc).
    specialize (IH w1). destruct (serve_all E reqs w1) as [rs w2].
    cbn [snd] in *. destruct IH as (IHs & IHq & IHc).
    cbn [length]. split_and!; [lia | lia |].
    intros Ht. destruct (Hc Ht) as [Hcache Hssm].
    rewrite Hcache in IHc. destruct (IHc Ht) as [-> ->]. done.
Qed.

(** Three requests on a warm cache: no fetch. *)
Lemma requests_fetch_and_enqueue_at_most_once_each_witness :
  api_token_cache
    (snd (serve_all (Fixtures.api_env "test-secret-token-12345")
            [Fixtures.post Fixtures.valid_payload;
             Fixtures.post Fixtures.wrong_token_payload;
             Fixtures.post Fixtures.valid_payload]
            {| api_token_cache := Some "test-secret-token-12345";
               ssm_calls := 1; sqs_calls := [] |}))
  = Some "test-secret-token-12345"
  ∧ ssm_calls
      (snd (serve_all (Fixtures.api_env "test-secret-token-12345")
              [Fixtures.post Fixtures.valid_payload;
               Fixtures.post Fixtures.wrong_token_payload;
               Fixtures.post Fixtures.valid_payload]
              {| api_token_cache := Some "test-secret-token-12345";
                 ssm_calls := 1; sqs_calls := [] |}))
    = 1.
Proof.
  exact (proj2 (proj2 (requests_fetch_and_enqueue_at_most_once_each
                         (Fixtures.api_env "test-secret-token-12345")
                         [Fixtures.post Fixtures.valid_payload;
                          Fixtures.post Fixtures.wrong_token_payload;
                          Fixtures.post Fixtures.valid_payload]
                         {| api_token_cache := Some "test-secret-token-12345";
                            ssm_calls := 1; sqs_calls := [] |}))
           eq_refl).
Defined.

(** ** How many fetches *)

Lemma get_api_token_calls_unfilled E n w :
  cache_truthy (api_token_cache w) = false →
  (∀ k, ssm_calls w ≤ k < ssm_calls w + n → fetch_fills_cache E k = false) →
  ssm_calls (snd (get_api_token_calls E n w)) = ssm_calls w + n
  ∧ cache_truthy (api_token_cache (snd (get_api_token_calls E n w))) = false.
Proof.
  revert w. induction n as [|n IH]; intros w Hc Hnone.
  - simpl. split; [lia | done].
  - cbn [get_api_token_calls].
    rewrite (get_api_token_cold E w Hc), fetch_api_token_run.
    assert (Hk : fetch_fills_cache E (ssm_calls w) = false)
      by (apply Hnone; lia).
    unfold fetch_fills_cache in Hk.
    destruct (ssm_get_parameter E (ssm_calls w) (SSM_PARAMETER_NAME E))
      as [v|e];
      match goal with
      | |- context [get_api_token_calls E n ?w1] =>
          destruct (IH w1) as [IHs IHc];
            [ simpl; done
            | simpl; intros k Hk'; apply Hnone; lia
            | destruct (get_api_token_calls E n w1) as [rs w2];
              simpl in *; split; [lia | done] ]
      end.
Qed.

Lemma get_api_token_calls_app E a b w :
  snd (get_api_token_calls E (a + b) w)
  = snd (get_api_token_calls E b (snd (get_api_token_calls E a w))).
Proof.
  revert w. induction a as [|a IH]; intros w; [done|].
  cbn [Nat.add get_api_token_calls].
  destruct (get_api_token E w) as [r w1]. specialize (IH w1).
  destruct (get_api_token_calls E (a + b) w1) as [rs w2].
  destruct (get_api_token_calls E a w1) as [rs' w2']. simpl in *.
  done.
Qed.

(** X8. From the start of the process, every call of [get_api_token]
    fetches as long as no fetch has returned a secret that is not empty (a
    fetch that raises and one that returns the empty string are alike): n
    such calls make n fetches. When the fetch number k (from 0) is the
    first to return such a secret, any larger number of calls makes k + 1
    fetches in all. *)
Theorem fetches_go_on_until_one_fills_the_cache :
  ∀ E : env,
    (∀ n,
       (∀ k, k < n → fetch_fills_cache E k = false) →
       ssm_calls (snd (get_api_token_calls E n initial_world)) = n)
    ∧ (∀ k n,
         (∀ j, j < k → fetch_fills_cache E j = false) →
         fetch_fills_cache E k = true →
         k < n →
         ssm_calls (snd (get_api_token_calls E n initial_world)) = S k).
Proof.
  intros E. split.
  - intros n Hnone.
    destruct (get_api_token_calls_unfilled E n initial_world eq_refl)
      as [Hs _]; [intros k Hk; apply Hnone; simpl in Hk; lia | done].
  - intros k n Hnone Hfill Hlt.
    replace n with (k + S (n - S k)) by lia.
    rewrite get_api_token_calls_app.
    destruct (get_api_token_calls_unfilled E k initial_world eq_refl)
      as [Hs Hc]; [intros j Hj; apply Hnone; simpl in Hj; lia |].
    set (w := snd (get_api_token_calls E k initial_world)) in *.
    simpl in Hs. cbn [get_api_token_calls].
    rewrite (get_api_token_cold E w Hc), fetch_api_token_run.
    unfold fetch_fills_cache in Hfill. rewrite Hs.
    destruct (ssm_get_parameter E k (SSM_PARAMETER_NAME E)) as [v|e];
      [|done].
    erewrite get_api_token_calls_cached; [done | done | done].
Qed.

(** A store that raises twice and then answers: five calls, three fetches. *)
Lemma fetches_go_on_until_one_fills_the_cache_witness :
  ssm_calls
    (snd (get_api_token_calls (Fixtures.api_env_flaky "cached-token") 5
            initial_world))
  = 3.
Proof.
  refine (proj2 (fetches_go_on_until_one_fills_the_cache
                   (Fixtures.api_env_flaky "cached-token"))
            2 5 _ eq_refl _).
  - intros j Hj. destruct j as [|[|j]]; [reflexivity | reflexivity | lia].
  - lia.
Defined.

End ApiExtra.

(* ===================================================================== *)
(** * Further properties of the consumer *)
(* ===================================================================== *)

Module ConsumerExtra.
Import Python Consumer ConsumerMain ConsumerNotions ConsumerSpec.

(** ** The trace of a cycle *)

Lemma replay_app objects evs1 evs2 :
  replay objects (evs1 ++ evs2) = replay (replay objects evs1) evs2.
Proof. unfold replay. apply foldl_app. Qed.

Lemma replay_dom objects evs : dom objects ⊆ dom (replay objects evs).
Proof.
  revert objects. induction evs as [|ev evs IH]; intros objects; [done|].
  change (replay objects (ev :: evs))
    with (replay (replay objects [ev]) evs).
  etrans; [|apply IH]. destruct ev as [| | key body [] |]; simpl; try done.
  rewrite dom_insert_L. set_solver.
Qed.

Lemma acknowledged_app evs1 evs2 :
  acknowledged (evs1 ++ evs2) = acknowledged evs1 + acknowledged evs2.
Proof. unfold acknowledged. by rewrite List.filter_app, length_app. Qed.

Lemma deletes_follow_uploads_app evs1 evs2 :
  deletes_follow_uploads evs1 → deletes_follow_uploads evs2 →
  deletes_follow_uploads (evs1 ++ evs2).
Proof.
  intros H1 H2 i receipt_handle ok Hi.
  destruct (decide (i < length evs1)) as [Hlt|Hge].
  - rewrite lookup_app_l in Hi by done.
    destruct (H1 _ _ _ Hi) as (j & key & body & -> & Hj).
    exists j, key, body. split; [done|].
    rewrite lookup_app_l by lia. done.
  - rewrite lookup_app_r in Hi by lia.
    destruct (H2 _ _ _ Hi) as (j & key & body & Heq & Hj).
    exists (length evs1 + j), key, body. split; [lia|].
    rewrite lookup_app_r by lia.
    by replace (length evs1 + j - length evs1) with j by lia.
Qed.

Lemma handled_acknowledged m b evs :
  handled m b evs → acknowledged evs = if b then 1 else 0.
Proof. by destruct 1. Qed.

Lemma handled_deletes_follow_uploads m b evs :
  handled m b evs → deletes_follow_uploads evs.
Proof.
  intros Hh i receipt_handle ok Hi.
  destruct Hh; destruct i as [|[|[|i]]]; try discriminate Hi;
    by eexists 1, _, _.
Qed.

Lemma batch_run_trace E ms w bs w' :
  batch_run E ms w bs w' →
  ∃ evs,
    trace w' = trace w ++ evs
    ∧ s3_objects w' = replay (s3_objects w) evs
    ∧ acknowledged evs = successes bs
    ∧ deletes_follow_uploads evs.
Proof.
  induction 1 as [w | m ms w b w1 bs w2 Hrun Hrest IH].
  - exists []. rewrite app_nil_r. by split_and!.
  - destruct (process_message_handled E m w)
      as (b' & evs1 & w1' & Hrun' & Htr & Hh & Hstore).
    rewrite Hrun in Hrun'. injection Hrun' as <- <-.
    destruct IH as (evs2 & Htr2 & Hstore2 & Hack & Hord).
    exists (evs1 ++ evs2). split_and!.
    + by rewrite Htr2, Htr, app_assoc.
    + by rewrite Hstore2, Hstore, replay_app.
    + rewrite acknowledged_app, Hack, (handled_acknowledged _ _ _ Hh).
      unfold successes. by destruct b.
    + apply deletes_follow_uploads_app; [|done].
      by eapply handled_deletes_follow_uploads.
Qed.

Lemma poll_sqs_after_receive E w response :
  sqs_receive_message E (length (trace w)) (SQS_QUEUE_URL E) (MAX_MESSAGES E)
  = Ret response →
  poll_sqs E w = process_each E (default [] response) 0 (received w).
Proof.
  intros Hrecv.
  unfold poll_sqs, try_except_ClientError, try_except, mbind, M_bind,
    call_receive_message.
  rewrite Hrecv. cbn [is_ret]. fold (received w).
  destruct (process_each_run E (default [] response) 0 (received w))
    as (bs & w' & _ & Heach).
  destruct (default [] response) as [|m ms] eqn:Hd.
  - reflexivity.
  - by rewrite Heach.
Qed.

(** What a cycle leaves: the receive call, then the trace of its batch. *)
Lemma poll_sqs_trace E w :
  ∃ r w' ok evs,
    poll_sqs E w = (r, w')
    ∧ trace w' = trace w ++ EvReceiveMessage ok :: evs
    ∧ s3_objects w' = replay (s3_objects w) evs
    ∧ deletes_follow_uploads evs
    ∧ (∀ n, r = Ret n → n = acknowledged evs)
    ∧ (ok = false → evs = [] ∧ ∀ n, r = Ret n → n = 0).
Proof.
  destruct (sqs_receive_message E (length (trace w)) (SQS_QUEUE_URL E)
              (MAX_MESSAGES E)) as [response|e] eqn:Hrecv.
  - rewrite (poll_sqs_after_receive E w response Hrecv).
    destruct (process_each_run E (default [] response) 0 (received w))
      as (bs & w' & Hbatch & Heach).
    destruct (batch_run_trace _ _ _ _ _ Hbatch)
      as (evs & Htr & Hstore & Hack & Hord).
    exists (Ret (0 + successes bs)), w', true, evs.
    split_and!; try done.
    + rewrite Htr. unfold received. cbn [trace]. by rewrite <- app_assoc.
    + intros n [= <-]. simpl. by rewrite Hack.
  - assert (Hrun : poll_sqs E w
                   = (if is_ClientError e then Ret 0 else Raise e,
                      {| s3_objects := s3_objects w;
                         trace := trace w ++ [EvReceiveMessage false] |})).
    { unfold poll_sqs, try_except_ClientError, try_except, mbind, M_bind,
        call_receive_message.
      rewrite Hrecv. cbn [is_ret]. by destruct (is_ClientError e). }
    eexists _, _, false, []. split; [exact Hrun|].
    assert (Hzero : ∀ n, (if is_ClientError e then Ret 0 else Raise e)
                         = Ret n → n = 0)
      by (intros n Hn; destruct (is_ClientError e);
          [by injection Hn as <- | discriminate Hn]).
    split_and!; try done; try (intros i ? ? Hi; by destruct i).
Qed.

(** X9. A cycle never removes an object. Whatever the collaborators do,
    the bucket after [poll_sqs] is the bucket before with the uploads of
    the cycle that returned written over it in order, and every key it had
    is still a key. *)
Theorem poll_sqs_only_adds_or_overwrites_objects :
  ∀ (E : env) (w : world),
    ∃ (ok : bool) (evs : list event),
      trace (snd (poll_sqs E w)) = trace w ++ EvReceiveMessage ok :: evs
      ∧ s3_objects (snd (poll_sqs E w)) = replay (s3_objects w) evs
      ∧ dom (s3_objects w) ⊆ dom (s3_objects (snd (poll_sqs E w))).
Proof.
  intros E w.
  destruct (poll_sqs_trace E w)
    as (r & w' & ok & evs & Hrun & Htr & Hstore & _).
  exists ok, evs. rewrite Hrun. cbn [snd]. split_and!; [done | done |].
  rewrite Hstore. apply replay_dom.
Qed.

(** X10. The number [poll_sqs] returns is the number of messages it
    deleted from the queue: the [delete_message] calls of the cycle that
    returned. *)
Theorem poll_sqs_returns_number_of_deleted_messages :
  ∀ (E : env) (w : world),
    ∃ (r : outcome nat) (w' : world) (ok : bool) (evs : list event),
      poll_sqs E w = (r, w')
      ∧ trace w' = trace w ++ EvReceiveMessage ok :: evs
      ∧ ∀ n, r = Ret n → n = acknowledged evs.
Proof.
  intros E w.
  destruct (poll_sqs_trace E w)
    as (r & w' & ok & evs & Hrun & Htr & _ & _ & Hn & _).
  by exists r, w', ok, evs.
Qed.

(** X11. Over a whole cycle, whatever the batch, every [delete_message]
    call comes right after a [put_object] call that returned: no message
    is deleted on the strength of another message's upload, and none
    before its own. *)
Theorem poll_sqs_deletes_right_after_uploads :
  ∀ (E : env) (w : world),
    ∃ (ok : bool) (evs : list event),
      trace (snd (poll_sqs E w)) = trace w ++ EvReceiveMessage ok :: evs
      ∧ ∀ i receipt_handle deleted,
          evs !! i = Some (EvDeleteMessage receipt_handle deleted) →
          ∃ j key body,
            i = S j ∧ evs !! j = Some (EvPutObject key body true).
Proof.
  intros E w.
  destruct (poll_sqs_trace E w)
    as (r & w' & ok & evs & Hrun & Htr & _ & Hord & _).
  exists ok, evs. rewrite Hrun. by split.
Qed.

(** ** One message, step by step *)

(** A message that has its three keys and whose body parses: the upload,
    and the delete when the upload returned. *)
Lemma process_message_parsed E m w receipt_handle message_id body data :
  m !! "ReceiptHandle" = Some receipt_handle →
  m !! "MessageId" = Some message_id →
  m !! "Body" = Some body →
  json_loads E body = Some data →
  let key := s3_key (utcnow E (length (trace w))) message_id in
  let text := json_dumps_indent2 E data in
  process_message E m w =
    match s3_put_object E (S (length (trace w))) (S3_BUCKET_NAME E) key text
    with
    | Ret _ =>
        let deleted :=
          is_ret (sqs_delete_message E (S (S (length (trace w))))
                    (SQS_QUEUE_URL E) receipt_handle) in
        (Ret deleted,
         {| s3_objects := <[key := text]> (s3_objects w);
            trace := trace w
                     ++ [EvUtcnow (utcnow E (length (trace w)));
                         EvPutObject key text true;
                         EvDeleteMessage receipt_handle deleted] |})
    | Raise _ => (Ret false, stored E w key text false)
    end.
Proof.
  intros Hr Hi Hb Hj key text.
  unfold process_message, try_except, mbind, M_bind, lift, msg_getitem.
  rewrite Hr, Hi, Hb, Hj, upload_to_s3_run. fold key text.
  destruct (s3_put_object E _ _ key text) as [[]|e].
  - cbn [negb]. unfold call_delete_message, mret, M_ret.
    cbn [trace s3_objects stored]. rewrite length_app. cbn [length].
    replace (length (trace w) + 2) with (S (S (length (trace w)))) by lia.
    rewrite <- app_assoc.
    by destruct (sqs_delete_message E _ _ receipt_handle) as [[]|e].
  - by destruct (is_ClientError e).
Qed.

(** X12. When the upload of a message returns and its [delete_message]
    raises, whatever the exception, [process_message] returns False, and
    the object stays in the bucket under the key of the message: the
    message is stored and not acknowledged. *)
Theorem failed_delete_keeps_the_stored_object :
  ∀ (E : env) (m : message) (w : world)
    (receipt_handle message_id body : string) (data : json) (e : exn),
    m !! "ReceiptHandle" = Some receipt_handle →
    m !! "MessageId" = Some message_id →
    m !! "Body" = Some body →
    json_loads E body = Some data →
    s3_put_object E (S (length (trace w))) (S3_BUCKET_NAME E)
      (s3_key (utcnow E (length (trace w))) message_id)
      (json_dumps_indent2 E data) = Ret () →
    sqs_delete_message E (S (S (length (trace w)))) (SQS_QUEUE_URL E)
      receipt_handle = Raise e →
    ∃ w',
      process_message E m w = (Ret false, w')
      ∧ s3_objects w' !! s3_key (utcnow E (length (trace w))) message_id
        = Some (json_dumps_indent2 E data)
      ∧ trace w'
        = trace w
          ++ [EvUtcnow (utcnow E (length (trace w)));
              EvPutObject (s3_key (utcnow E (length (trace w))) message_id)
                (json_dumps_indent2 E data) true;
              EvDeleteMessage receipt_handle false].
Proof.
  intros E m w receipt_handle message_id body data e Hr Hi Hb Hj Hput Hdel.
  rewrite (process_message_parsed E m w _ _ _ _ Hr Hi Hb Hj). cbv zeta.
  rewrite Hput, Hdel. cbn [is_ret]. eexists. split; [reflexivity|].
  split; [apply lookup_insert_eq | reflexivity].
Qed.

(** The message of the test suite with a queue that refuses the delete. *)
Lemma failed_delete_keeps_the_stored_object_witness :
  ∃ w',
    process_message (Fixtures.consumer_env_delete_fails []) Fixtures.sqs_message
      Fixtures.empty_world = (Ret false, w')
    ∧ s3_objects w'
      !! s3_key (Fixtures.new_year_2024 0) "test-message-id-12345"
      = Some (Fixtures.dumps_indent 0 Fixtures.sample_message_data)
    ∧ trace w'
      = trace Fixtures.empty_world
        ++ [EvUtcnow (Fixtures.new_year_2024 0);
            EvPutObject
              (s3_key (Fixtures.new_year_2024 0) "test-message-id-12345")
              (Fixtures.dumps_indent 0 Fixtures.sample_message_data) true;
            EvDeleteMessage "test-receipt-handle" false].
Proof.
  exact (failed_delete_keeps_the_stored_object
           (Fixtures.consumer_env_delete_fails []) Fixtures.sqs_message
           Fixtures.empty_world "test-receipt-handle" "test-message-id-12345"
           (Fixtures.dumps Fixtures.sample_message_data)
           Fixtures.sample_message_data
           (ClientError "ReceiptHandleIsInvalid")
           eq_refl eq_refl eq_refl eq_refl eq_refl eq_refl).
Defined.

(** X13. A cycle without messages. When [receive_message] returns a
    response without [Messages] or with an empty list, [poll_sqs] returns
    0 and has made that one call; when it raises a [ClientError],
    [poll_sqs] returns 0; when it raises anything else, the exception
    leaves [poll_sqs]. In none of these is the bucket touched. *)
Theorem poll_sqs_without_messages :
  ∀ (E : env) (w : world),
    (∀ response,
       sqs_receive_message E (length (trace w)) (SQS_QUEUE_URL E)
         (MAX_MESSAGES E) = Ret response →
       response = None ∨ response = Some [] →
       poll_sqs E w
       = (Ret 0, {| s3_objects := s3_objects w;
                    trace := trace w ++ [EvReceiveMessage true] |}))
    ∧ (∀ e,
         sqs_receive_message E (length (trace w)) (SQS_QUEUE_URL E)
           (MAX_MESSAGES E) = Raise e →
         poll_sqs E w
         = (if is_ClientError e then Ret 0 else Raise e,
            {| s3_objects := s3_objects w;
               trace := trace w ++ [EvReceiveMessage false] |})).
Proof.
  intros E w. split.
  - intros response Hrecv Hnone.
    apply (poll_sqs_no_messages E w response Hrecv).
    by destruct Hnone as [-> | ->].
  - intros e Hrecv.
    unfold poll_sqs, try_except_ClientError, try_except, mbind, M_bind,
      call_receive_message.
    rewrite Hrecv. cbn [is_ret]. by destruct (is_ClientError e).
Qed.

(** An empty queue. *)
Lemma poll_sqs_without_messages_witness :
  poll_sqs (Fixtures.consumer_env [] true) Fixtures.empty_world
  = (Ret 0, {| s3_objects := ∅; trace := [EvReceiveMessage true] |}).
Proof.
  exact (proj1 (poll_sqs_without_messages (Fixtures.consumer_env [] true)
                  Fixtures.empty_world)
           (Some []) eq_refl (or_intror eq_refl)).
Defined.


(** ** The loop of [main] *)





(** What the three turns of the witness leave: three receive calls that
    raised, and nothing else; and an empty bucket name stops [main]. *)
Example main_unreachable_queue :
  fst (poll_sqs Fixtures.consumer_env_unreachable Fixtures.empty_world)
  = Raise (OtherError "EndpointConnectionError")
  ∧ trace (poll_cycles Fixtures.consumer_env_unreachable 3
             Fixtures.empty_world)
    = [EvReceiveMessage false; EvReceiveMessage false;
       EvReceiveMessage false]
  ∧ main Fixtures.consumer_env_no_bucket 10 3 Fixtures.empty_main_world
    = (Raise (OtherError "S3_BUCKET_NAME environment variable is required"),
       Fixtures.empty_main_world).
Proof. split_and!; reflexivity. Qed.

(** ** Keys do not collide *)

Lemma string_length_app (a b : string) :
  String.length (a +:+ b) = String.length a + String.length b.
Proof. induction a as [|c a IH]; simpl; [done | by rewrite IH]. Qed.

Lemma string_app_inv_tail (x y t : string) : x +:+ t = y +:+ t → x = y.
Proof.
  revert y. induction x as [|c x IH]; intros [|c' y] H.
  - done.
  - apply (f_equal String.length) in H.
    rewrite !string_length_app in H. simpl in H. lia.
  - apply (f_equal String.length) in H.
    rewrite !string_length_app in H. simpl in H. lia.
  - change (String c (x +:+ t) = String c' (y +:+ t)) in H.
    injection H as -> H. by rewrite (IH y H).
Qed.

Lemma split_at_slash (p1 p2 r1 r2 : string) :
  no_slash p1 = true → no_slash p2 = true →
  p1 +:+ String "/" r1 = p2 +:+ String "/" r2 →
  p1 = p2 ∧ r1 = r2.
Proof.
  revert p2. induction p1 as [|c p1 IH]; intros [|c' p2] H1 H2 H.
  - change (String "/" r1 = String "/" r2) in H. by injection H as ->.
  - change (String "/" r1 = String c' (p2 +:+ String "/" r2)) in H.
    injection H as <- _. simpl in H2.
    try rewrite Ascii.eqb_refl in H2. discriminate H2.
  - change (String c (p1 +:+ String "/" r1) = String "/" r2) in H.
    injection H as -> _. simpl in H1.
    try rewrite Ascii.eqb_refl in H1. discriminate H1.
  - change (String c (p1 +:+ String "/" r1)
            = String c' (p2 +:+ String "/" r2)) in H.
    injection H as -> H. simpl in H1, H2.
    apply andb_true_iff in H1 as [_ H1]. apply andb_true_iff in H2 as [_ H2].
    destruct (IH p2 H1 H2 H) as [-> ->]. done.
Qed.

Lemma pretty_N_go_no_slash x s :
  no_slash s = true → no_slash (pretty_N_go x s) = true.
Proof.
  revert s. induction (N.lt_wf_0 x) as [x _ IH]; intros s Hs.
  destruct (decide (x = 0)%N) as [->|Hx]; [by rewrite pretty_N_go_0|].
  rewrite pretty_N_go_step by lia. apply IH.
  - apply N.div_lt; lia.
  - simpl. rewrite Hs, andb_true_r.
    unfold pretty_N_char. by repeat case_match.
Qed.

Lemma pretty_nat_no_slash (n : nat) : no_slash (pretty n) = true.
Proof.
  unfold pretty, pretty_nat, pretty, pretty_N.
  destruct (decide (N.of_nat n = 0)%N); [done|].
  by apply pretty_N_go_no_slash.
Qed.

Lemma two_digits_below_100_inj :
  forallb (λ a, forallb (λ b, implb (String.eqb (two_digits a) (two_digits b))
                                (a =? b))
                  (seq 0 100))
    (seq 0 100) = true.
Proof. vm_compute. reflexivity. Qed.

Lemma two_digits_inj a b :
  a < 100 → b < 100 → two_digits a = two_digits b → a = b.
Proof.
  intros Ha Hb Heq. pose proof two_digits_below_100_inj as Hall.
  rewrite forallb_forall in Hall.
  specialize (Hall a (proj2 (in_seq _ _ _) (conj (Nat.le_0_l a) Ha))).
  rewrite forallb_forall in Hall.
  specialize (Hall b (proj2 (in_seq _ _ _) (conj (Nat.le_0_l b) Hb))).
  apply String.eqb_eq in Heq. rewrite Heq in Hall. simpl in Hall.
  by apply Nat.eqb_eq.
Qed.

Lemma two_digits_app_inv n n' (r r' : string) :
  two_digits n +:+ r = two_digits n' +:+ r' →
  two_digits n = two_digits n' ∧ r = r'.
Proof.
  unfold two_digits.
  generalize (digit (n / 10)) (digit (n `mod` 10))
             (digit (n' / 10)) (digit (n' `mod` 10)).
  intros c1 c2 c1' c2' H.
  change (String c1 (String c2 r) = String c1' (String c2' r')) in H.
  by injection H as -> -> ->.
Qed.

(** X16. Keys do not collide: for valid dates, two keys are equal only
    for the same year, month and day and the same message id, whatever
    characters the ids are made of. *)
Theorem s3_key_determines_day_and_message_id :
  ∀ (a b : datetime) (id1 id2 : string),
    valid_date a → valid_date b →
    s3_key a id1 = s3_key b id2 →
    same_day a b ∧ id1 = id2.
Proof.
  intros a b id1 id2 Ha Hb Hkey.
  rewrite (s3_key_spec_key a id1 Ha), (s3_key_spec_key b id2 Hb) in Hkey.
  destruct Ha as (_ & Hma & Hda), Hb as (_ & Hmb & Hdb).
  unfold spec_key in Hkey.
  apply (inj (String.append "messages/")) in Hkey.
  apply split_at_slash in Hkey as [Hy Hkey]; try apply pretty_nat_no_slash.
  apply (inj pretty) in Hy.
  apply two_digits_app_inv in Hkey as [Hm Hkey].
  apply (inj (String.append "/")) in Hkey.
  apply two_digits_app_inv in Hkey as [Hd Hid].
  apply (inj (String.append "/")) in Hid.
  apply string_app_inv_tail in Hid.
  apply two_digits_inj in Hm; [|lia..].
  apply two_digits_inj in Hd; [|lia..].
  by repeat split.
Qed.

(** Two messages of the same day: equal keys, equal ids. *)
Lemma s3_key_determines_day_and_message_id_witness :
  same_day (Fixtures.new_year_2024 0) (Fixtures.new_year_2024 3)
  ∧ "test-message-123" = "test-message-123".
Proof.
  apply (s3_key_determines_day_and_message_id
           (Fixtures.new_year_2024 0) (Fixtures.new_year_2024 3)
           "test-message-123" "test-message-123").
  - unfold valid_date. simpl. lia.
  - unfold valid_date. simpl. lia.
  - reflexivity.
Defined.

End ConsumerExtra.

(* ===================================================================== *)
(** * From the request to the stored object *)
(* ===================================================================== *)

Module RelaySpec.
Import Python.

Lemma delivered_lookup message_id receipt_handle body :
  Relay.delivered message_id receipt_handle body !! "ReceiptHandle"
  = Some receipt_handle
  ∧ Relay.delivered message_id receipt_handle body !! "MessageId"
    = Some message_id
  ∧ Relay.delivered message_id receipt_handle body !! "Body" = Some body.
Proof. unfold Relay.delivered. split_and!; by simplify_map_eq. Qed.

(** X17. The two services composed through the queue. A request that
    passes validation and carries the secret is answered 200 with the id
    the queue returned; when the message the queue then delivers (that id,
    the body that was sent) reaches the consumer, the body parses back to
    the data that was sent, the bucket takes the upload and the queue the
    delete, then the consumer returns True and the bucket holds, under
    messages/<date>/<that id>.json, the indented encoding of the very
    [data] of the request, and the message has been deleted. *)
Theorem accepted_request_is_stored_under_its_message_id :
  ∀ (Ea : Api.env) (Ec : Consumer.env) (req : Api.request)
    (payload data : json) (wa wa1 : Api.world) (wc : Consumer.world)
    (secret message_id receipt_handle : string),
    Api.is_json req = true →
    Api.get_json req = Ret payload →
    Api.validate_payload payload = Ret (true, None) →
    py_getitem payload "token" = Ret (JStr secret) →
    py_getitem payload "data" = Ret data →
    Api.get_api_token Ea wa = (Ret secret, wa1) →
    Api.sqs_send_message Ea (length (Api.sqs_calls wa)) (Api.SQS_QUEUE_URL Ea)
      (Api.json_dumps Ea data) = Ret message_id →
    Consumer.json_loads Ec (Api.json_dumps Ea data) = Some data →
    Consumer.s3_put_object Ec (S (length (Consumer.trace wc)))
      (Consumer.S3_BUCKET_NAME Ec)
      (Consumer.s3_key (Consumer.utcnow Ec (length (Consumer.trace wc)))
         message_id)
      (Consumer.json_dumps_indent2 Ec data) = Ret () →
    Consumer.sqs_delete_message Ec (S (S (length (Consumer.trace wc))))
      (Consumer.SQS_QUEUE_URL Ec) receipt_handle = Ret () →
    ∃ (wa' : Api.world) (wc' : Consumer.world),
      Api.process_message Ea req wa
      = (Ret {| Api.status := 200;
                Api.body := JObj [("status", JStr "success");
                                  ("message", JStr "Message sent to queue");
                                  ("message_id", JStr message_id)] |}, wa')
      ∧ Api.sqs_calls wa' = Api.sqs_calls wa ++ [Api.json_dumps Ea data]
      ∧ Consumer.process_message Ec
          (Relay.delivered message_id receipt_handle (Api.json_dumps Ea data))
          wc
        = (Ret true, wc')
      ∧ Consumer.s3_objects wc'
        !! Consumer.s3_key (Consumer.utcnow Ec (length (Consumer.trace wc)))
             message_id
        = Some (Consumer.json_dumps_indent2 Ec data)
      ∧ Consumer.trace wc'
        = Consumer.trace wc
          ++ [Consumer.EvUtcnow
                (Consumer.utcnow Ec (length (Consumer.trace wc)));
              Consumer.EvPutObject
                (Consumer.s3_key
                   (Consumer.utcnow Ec (length (Consumer.trace wc)))
                   message_id)
                (Consumer.json_dumps_indent2 Ec data) true;
              Consumer.EvDeleteMessage receipt_handle true].
Proof.
  intros Ea Ec req payload data wa wa1 wc secret message_id receipt_handle
    Hj Hp Hv Htok Hdat Hget Hsend Hloads Hput Hdel.
  destruct (ApiSpec.process_message_valid Ea req payload None wa Hj Hp Hv)
    as (token' & data' & Htok' & Hdat' & Hrun).
  assert (token' = JStr secret) as -> by congruence.
  assert (data' = data) as -> by congruence.
  pose proof (ApiSpec.get_api_token_sqs_calls _ _ _ _ Hget) as Hq.
  destruct (delivered_lookup message_id receipt_handle
              (Api.json_dumps Ea data)) as (Hr & Hi & Hb).
  eexists _, _. split_and!.
  - rewrite Hrun. apply ApiSpec.authenticate_accepts; [done|].
    by rewrite Hq.
  - simpl. by rewrite Hq.
  - rewrite (ConsumerExtra.process_message_parsed Ec _ wc _ _ _ _
               Hr Hi Hb Hloads).
    cbv zeta. rewrite Hput, Hdel. reflexivity.
  - apply lookup_insert_eq.
  - reflexivity.
Qed.

(** The sample message sent with the right token, then delivered to a
    consumer whose bucket exists. *)
Lemma accepted_request_is_stored_under_its_message_id_witness :
  ∃ (wa' : Api.world) (wc' : Consumer.world),
    Api.process_message (Fixtures.api_env "test-secret-token-12345")
      (Fixtures.post Fixtures.relay_payload) Api.initial_world
    = (Ret {| Api.status := 200;
              Api.body := JObj [("status", JStr "success");
                                ("message", JStr "Message sent to queue");
                                ("message_id", JStr "msg-0")] |}, wa')
    ∧ Api.sqs_calls wa'
      = Api.sqs_calls Api.initial_world
        ++ [Fixtures.dumps Fixtures.sample_message_data]
    ∧ Consumer.process_message (Fixtures.consumer_env [] true)
        (Relay.delivered "msg-0" "receipt-0"
           (Fixtures.dumps Fixtures.sample_message_data))
        Fixtures.empty_world
      = (Ret true, wc')
    ∧ Consumer.s3_objects wc'
      !! Consumer.s3_key (Fixtures.new_year_2024 0) "msg-0"
      = Some (Fixtures.dumps_indent 0 Fixtures.sample_message_data)
    ∧ Consumer.trace wc'
      = Consumer.trace Fixtures.empty_world
        ++ [Consumer.EvUtcnow (Fixtures.new_year_2024 0);
            Consumer.EvPutObject
              (Consumer.s3_key (Fixtures.new_year_2024 0) "msg-0")
              (Fixtures.dumps_indent 0 Fixtures.sample_message_data) true;
            Consumer.EvDeleteMessage "receipt-0" true].
Proof.
  exact (accepted_request_is_stored_under_its_message_id
           (Fixtures.api_env "test-secret-token-12345")
           (Fixtures.consumer_env [] true)
           (Fixtures.post Fixtures.relay_payload)
           Fixtures.relay_payload Fixtures.sample_message_data
           Api.initial_world
           {| Api.api_token_cache := Some "test-secret-token-12345";
              Api.ssm_calls := 1; Api.sqs_calls := [] |}
           Fixtures.empty_world
           "test-secret-token-12345" "msg-0" "receipt-0"
           eq_refl eq_refl eq_refl eq_refl eq_refl eq_refl eq_refl
           eq_refl eq_refl eq_refl).
Defined.

End RelaySpec.

(* ===================================================================== *)
(** * Properties of the waiting loop of the end-to-end test *)
(* ===================================================================== *)

Module E2ESpec.
Import Python E2E E2ENotions.

(** One step of [scan], by the verdict on the key. *)
Lemma scan_step E k test_subject key rest :
  inspect E k test_subject key ≠ Unreadable →
  scan E k test_subject (key :: rest) =
    match inspect E k test_subject key with
    | Match => Ret (Some key)
    | _ => scan E k test_subject rest
    end.
Proof.
  cbn [scan]. unfold inspect, loads_or_raise.
  destruct (s3_get_object E k key) as [text|e]; [|done]. simpl.
  destruct (json_loads E text) as [[| | | | | |d]|]; try done. simpl.
  destruct (dict_get "email_subject" d) as [[| | | | s | |]|]; try done.
  simpl. by destruct (String.eqb s test_subject).
Qed.

Lemma scan_skips_other_objects E k test_subject before rest :
  (∀ other, other ∈ before → inspect E k test_subject other = NoMatch) →
  scan E k test_subject (before ++ rest) = scan E k test_subject rest.
Proof.
  induction before as [|other before IH]; intros Hbefore; [done|].
  cbn [app].
  pose proof (Hbefore other (list_elem_of_here _ _)) as Hother.
  rewrite scan_step by (by rewrite Hother). rewrite Hother.
  apply IH. intros o Ho. apply Hbefore. by right.
Qed.

Lemma scan_unreadable E k test_subject key rest :
  inspect E k test_subject key = Unreadable →
  ∃ e, scan E k test_subject (key :: rest) = Raise e.
Proof.
  cbn [scan]. unfold inspect, loads_or_raise.
  destruct (s3_get_object E k key) as [text|e]; [|by eexists]. simpl.
  destruct (json_loads E text) as [[| | | | | |d]|]; try (by eexists).
  simpl. destruct (dict_get "email_subject" d) as [[| | | | s | |]|];
    try done.
  by destruct (String.eqb s test_subject).
Qed.

(** X18. What one look at the bucket finds. With a listing in hand, the
    look goes through the keys in order and stops at the first object
    whose subject is the one of the test: that key is found when every
    object listed before it is readable and is another object; and an
    object that cannot be read (it cannot be fetched, does not parse, or
    is not a JSON object) ends the look with nothing found, so that it
    hides every object listed after it. *)
Theorem look_stops_at_first_match_or_unreadable_object :
  ∀ (E : env) (k : nat) (test_subject : string)
    (before after : list string) (key : string),
    s3_list_objects_v2 E k (prefix (utcnow E k))
    = Ret (Some (before ++ key :: after)) →
    (∀ other, other ∈ before → inspect E k test_subject other = NoMatch) →
    (inspect E k test_subject key = Match →
     look E k test_subject = Some key)
    ∧ (inspect E k test_subject key = Unreadable →
       look E k test_subject = None).
Proof.
  intros E k test_subject before after key Hlist Hbefore.
  pose proof (scan_skips_other_objects E k test_subject before
                (key :: after) Hbefore) as Hscan.
  unfold look. rewrite Hlist. simpl. rewrite Hscan. split.
  - intros Hm. rewrite scan_step by (by rewrite Hm). by rewrite Hm.
  - intros Hu. by destruct (scan_unreadable E k test_subject key after Hu)
      as [e ->].
Qed.

(** The listing of the fixture with the broken object first: the sample
    message is not found. *)
Lemma look_stops_at_first_match_or_unreadable_object_witness :
  look (Fixtures.e2e_env 3 true) 3 "Test Subject" = None.
Proof.
  refine (proj2 (look_stops_at_first_match_or_unreadable_object
                   (Fixtures.e2e_env 3 true) 3 "Test Subject"
                   [] ["messages/2024/01/01/msg-0.json"]
                   "messages/2024/01/01/broken.json" eq_refl _)
            eq_refl).
  intros other Hother. by apply elem_of_nil in Hother.
Defined.

(** The same listing without the broken object: found. *)
Example look_finds_the_sample_message :
  look (Fixtures.e2e_env 3 false) 3 "Test Subject"
  = Some "messages/2024/01/01/msg-0.json"
  ∧ look (Fixtures.e2e_env 3 false) 2 "Test Subject" = None.
Proof. split; reflexivity. Qed.

Lemma wait_turn_invariant E test_subject st :
  wait_invariant E test_subject st →
  elapsed st < max_wait_time →
  file_found st = false →
  wait_invariant E test_subject (wait_turn E test_subject st).
Proof.
  intros (Hel & Hturns & Hnot & _) Hlt Hf.
  destruct (Hnot Hf) as [Hkey Hnone].
  unfold max_wait_time, check_interval in *.
  unfold wait_turn, wait_invariant.
  destruct (look E (turns st) test_subject) as [key|] eqn:Hlook;
    cbn [elapsed file_found s3_key turns]; unfold check_interval.
  - split_and!; [lia | lia | done |].
    intros _. by exists (turns st), key.
  - rewrite Hf. split_and!; [lia | lia | | done].
    intros _. split; [done|]. intros j Hj.
    destruct (decide (j = turns st)) as [->|]; [done|]. apply Hnone. lia.
Qed.

Lemma wait_loop_ends E test_subject fuel st :
  wait_invariant E test_subject st →
  12 ≤ turns st + fuel →
  ∃ st',
    wait_loop E test_subject fuel st = Some st'
    ∧ wait_invariant E test_subject st'
    ∧ (file_found st' = false → turns st' = 12).
Proof.
  revert st. induction fuel as [|fuel IH]; intros st Hinv Hfuel.
  - assert (turns st = 12) as Ht by (destruct Hinv as (_ & ? & _); lia).
    destruct Hinv as (Hel & Hturns & Hrest). exists st. cbn [wait_loop].
    assert ((elapsed st <? max_wait_time) = false) as ->.
    { apply Nat.ltb_ge. unfold max_wait_time, check_interval in *. lia. }
    by split_and!.
  - cbn [wait_loop].
    destruct (elapsed st <? max_wait_time) eqn:Hlt; cbn [andb].
    + destruct (file_found st) eqn:Hf; cbn [negb].
      * exists st. split_and!; [done | done | congruence].
      * apply Nat.ltb_lt in Hlt.
        apply IH; [by apply wait_turn_invariant|].
        unfold wait_turn. destruct (look _ _ _); simpl; lia.
    + apply Nat.ltb_ge in Hlt. exists st. split_and!; [done | done |].
      intros _. destruct Hinv as (Hel & Hturns & _).
      unfold max_wait_time, check_interval in *. lia.
Qed.

(** X19. The waiting loop ends within 12 turns, which is 60 seconds of
    sleep in steps of 5: with fuel for 12 turns it always returns. It
    stops at the first turn whose look finds the object, with that key;
    and when no look of the 12 turns finds it, it gives up after exactly
    12 turns with nothing found. *)
Theorem wait_loop_gives_up_after_twelve_looks :
  ∀ (E : env) (test_subject : string) (fuel : nat),
    12 ≤ fuel →
    ∃ st : wait_state,
      wait_loop E test_subject fuel wait_start = Some st
      ∧ elapsed st = 5 * turns st
      ∧ turns st ≤ 12
      ∧ (file_found st = true →
         ∃ j key,
           turns st = S j ∧ s3_key st = Some key
           ∧ look E j test_subject = Some key
           ∧ ∀ i, i < j → look E i test_subject = None)
      ∧ (file_found st = false →
         turns st = 12 ∧ elapsed st = 60 ∧ s3_key st = None
         ∧ ∀ j, j < 12 → look E j test_subject = None).
Proof.
  intros E test_subject fuel Hfuel.
  assert (Hstart : wait_invariant E test_subject wait_start).
  { unfold wait_invariant, wait_start, check_interval. simpl.
    split_and!; [done | lia | | done].
    intros _. split; [done|]. intros j Hj. lia. }
  destruct (wait_loop_ends E test_subject fuel wait_start Hstart)
    as (st & Hrun & (Hel & Hturns & Hnot & Hfound) & Hlast);
    [simpl; lia|].
  unfold check_interval in Hel.
  exists st. split_and!; [done | done | done | done |].
  intros Hf. specialize (Hlast Hf). destruct (Hnot Hf) as [Hkey Hnone].
  split_and!; [done | lia | done |].
  intros j Hj. apply Hnone. lia.
Qed.

(** The object appears at the fourth look: found after 20 seconds. *)
Lemma wait_loop_gives_up_after_twelve_looks_witness :
  ∃ st : wait_state,
    wait_loop (Fixtures.e2e_env 3 false) "Test Subject" 12 wait_start
    = Some st
    ∧ elapsed st = 5 * turns st
    ∧ turns st ≤ 12
    ∧ (file_found st = true →
       ∃ j key,
         turns st = S j ∧ s3_key st = Some key
         ∧ look (Fixtures.e2e_env 3 false) j "Test Subject" = Some key
         ∧ ∀ i, i < j →
                look (Fixtures.e2e_env 3 false) i "Test Subject" = None)
    ∧ (file_found st = false →
       turns st = 12 ∧ elapsed st = 60 ∧ s3_key st = None
       ∧ ∀ j, j < 12 →
              look (Fixtures.e2e_env 3 false) j "Test Subject" = None).
Proof.
  apply (wait_loop_gives_up_after_twelve_looks
           (Fixtures.e2e_env 3 false) "Test Subject" 12).
  lia.
Defined.

(** What the loop returns on the two fixtures. *)
Example wait_loop_on_fixtures :
  wait_loop (Fixtures.e2e_env 3 false) "Test Subject" 12 wait_start
  = Some {| elapsed := 20; file_found := true;
            s3_key := Some "messages/2024/01/01/msg-0.json"; turns := 4 |}
  ∧ wait_loop (Fixtures.e2e_env 3 true) "Test Subject" 12 wait_start
    = Some {| elapsed := 60; file_found := false;
              s3_key := None; turns := 12 |}.
Proof. split; reflexivity. Qed.

End E2ESpec.
